(** * go-xmpp: a shallow embedding of xmpp.go and its checked properties

    Go strings are byte sequences: they are modelled as [string], whose
    characters ([ascii]) are exactly the 256 byte values.  Library code the
    source calls (strings, fmt, crypto/md5, encoding/base64, encoding/xml)
    is modelled from its documented behaviour, each in a module of its own;
    the functions of xmpp.go itself are in [Module Xmpp] and keep their
    names. *)

From Stdlib Require Import NArith List String Ascii Bool Arith Lia.
Import ListNotations.
Local Open Scope string_scope.

(* ------------------------------------------------------------------ *)
(** ** Byte strings *)

Module Bytes.

Fixpoint to_list (s : string) : list ascii :=
  match s with
  | EmptyString => []
  | String c r => c :: to_list r
  end.

Fixpoint of_list (l : list ascii) : string :=
  match l with
  | [] => EmptyString
  | c :: r => String c (of_list r)
  end.

Definition to_N (s : string) : list N := map N_of_ascii (to_list s).
Definition of_N (l : list N) : string := of_list (map ascii_of_N l).

(** [s] occurs somewhere inside [t]. *)
Fixpoint contains (t s : string) : bool :=
  prefix s t ||
  match t with
  | EmptyString => false
  | String _ r => contains r s
  end.

End Bytes.

(* ------------------------------------------------------------------ *)
(** ** fmt: the verbs the source uses *)

Module Fmt.

Definition hex_digit (n : N) : ascii :=
  if (n <? 10)%N then ascii_of_N (48 + n) else ascii_of_N (87 + n).

(** The hexadecimal digits of [n], most significant first, [fuel] bounding
    the number of digits. *)
Fixpoint hex_digits (fuel : nat) (n : N) (acc : list ascii) : list ascii :=
  match fuel with
  | O => acc
  | S f =>
      let acc' := hex_digit (N.land n 15) :: acc in
      if (N.shiftr n 4 =? 0)%N then acc' else hex_digits f (N.shiftr n 4) acc'
  end.

(** [%x] on an unsigned integer. *)
Definition x_uint (n : N) : string :=
  Bytes.of_list (hex_digits (S (N.to_nat (N.log2 n))) n []).

(** [%0Wx] on an unsigned integer: left-padded with zeros to width [w]. *)
Definition x_uint_pad (w : nat) (n : N) : string :=
  let d := hex_digits (S (N.to_nat (N.log2 n))) n [] in
  Bytes.of_list (repeat "0"%char (w - List.length d) ++ d)%list.

(** [%x] on a byte slice: two lower-case digits per byte. *)
Definition x_bytes (b : list N) : string :=
  Bytes.of_list
    (flat_map (fun n => [hex_digit (N.shiftr n 4); hex_digit (N.land n 15)]) b).

(** [%v] on a [[]string]: the elements separated by spaces, in brackets. *)
Definition v_strings (l : list string) : string :=
  "[" ++ String.concat " " l ++ "]".

End Fmt.

(* ------------------------------------------------------------------ *)
(** ** crypto/md5 (RFC 1321) *)

Module MD5.
Local Open Scope N_scope.

Definition mask32 : N := 0xFFFFFFFF.
Definition add32 (a b : N) : N := N.land (a + b) mask32.
Definition not32 (a : N) : N := N.lxor a mask32.
Definition rotl32 (x : N) (s : N) : N :=
  N.land (N.lor (N.shiftl x s) (N.shiftr x (32 - s))) mask32.

Definition K : list N :=
  [ 0xd76aa478; 0xe8c7b756; 0x242070db; 0xc1bdceee;
    0xf57c0faf; 0x4787c62a; 0xa8304613; 0xfd469501;
    0x698098d8; 0x8b44f7af; 0xffff5bb1; 0x895cd7be;
    0x6b901122; 0xfd987193; 0xa679438e; 0x49b40821;
    0xf61e2562; 0xc040b340; 0x265e5a51; 0xe9b6c7aa;
    0xd62f105d; 0x02441453; 0xd8a1e681; 0xe7d3fbc8;
    0x21e1cde6; 0xc33707d6; 0xf4d50d87; 0x455a14ed;
    0xa9e3e905; 0xfcefa3f8; 0x676f02d9; 0x8d2a4c8a;
    0xfffa3942; 0x8771f681; 0x6d9d6122; 0xfde5380c;
    0xa4beea44; 0x4bdecfa9; 0xf6bb4b60; 0xbebfbc70;
    0x289b7ec6; 0xeaa127fa; 0xd4ef3085; 0x04881d05;
    0xd9d4d039; 0xe6db99e5; 0x1fa27cf8; 0xc4ac5665;
    0xf4292244; 0x432aff97; 0xab9423a7; 0xfc93a039;
    0x655b59c3; 0x8f0ccc92; 0xffeff47d; 0x85845dd1;
    0x6fa87e4f; 0xfe2ce6e0; 0xa3014314; 0x4e0811a1;
    0xf7537e82; 0xbd3af235; 0x2ad7d2bb; 0xeb86d391 ].

Definition S_ : list N :=
  [ 7; 12; 17; 22; 7; 12; 17; 22; 7; 12; 17; 22; 7; 12; 17; 22;
    5; 9; 14; 20; 5; 9; 14; 20; 5; 9; 14; 20; 5; 9; 14; 20;
    4; 11; 16; 23; 4; 11; 16; 23; 4; 11; 16; 23; 4; 11; 16; 23;
    6; 10; 15; 21; 6; 10; 15; 21; 6; 10; 15; 21; 6; 10; 15; 21 ].

(** The message padded to a multiple of 64 bytes: a 1 bit, zeros, and the
    bit length as a 64-bit little-endian integer. *)
Definition le_bytes (n : nat) (x : N) : list N :=
  map (fun i => N.land (N.shiftr x (8 * N.of_nat i)) 255) (seq 0 n).

Definition pad (msg : list N) : list N :=
  let len := N.of_nat (List.length msg) in
  let zeros := N.to_nat ((119 - len mod 64) mod 64) in
  (msg ++ [0x80] ++ repeat 0 zeros
     ++ le_bytes 8 (N.land (8 * len) 0xFFFFFFFFFFFFFFFF))%list.

Definition le_word (b : list N) : N :=
  fold_right (fun x acc => x + 256 * acc) 0 b.

(** The sixteen little-endian words of a 64-byte block. *)
Fixpoint words (n : nat) (b : list N) : list N :=
  match n with
  | O => []
  | S n' => le_word (firstn 4 b) :: words n' (skipn 4 b)
  end.

Definition state : Type := N * N * N * N.

Definition step (M : list N) (st : state) (i : nat) : state :=
  let '(A, B, C, D) := st in
  let iN := N.of_nat i in
  let '(F, g) :=
    if iN <? 16 then (N.lor (N.land B C) (N.land (not32 B) D), iN)
    else if iN <? 32 then
      (N.lor (N.land D B) (N.land (not32 D) C), (5 * iN + 1) mod 16)
    else if iN <? 48 then (N.lxor B (N.lxor C D), (3 * iN + 5) mod 16)
    else (N.lxor C (N.lor B (not32 D)), (7 * iN) mod 16) in
  let F' := add32 (add32 (add32 F A) (nth i K 0)) (nth (N.to_nat g) M 0) in
  (D, add32 B (rotl32 F' (nth i S_ 0)), B, C).

Definition block (st : state) (b : list N) : state :=
  let M := words 16 b in
  let '(A, B, C, D) := fold_left (step M) (seq 0 64) st in
  let '(a0, b0, c0, d0) := st in
  (add32 a0 A, add32 b0 B, add32 c0 C, add32 d0 D).

Fixpoint blocks (n : nat) (st : state) (b : list N) : state :=
  match n with
  | O => st
  | S n' => blocks n' (block st (firstn 64 b)) (skipn 64 b)
  end.

Definition init : state := (0x67452301, 0xefcdab89, 0x98badcfe, 0x10325476).

(** The 16-byte digest of a byte sequence. *)
Definition sum_bytes (msg : list N) : list N :=
  let p := pad msg in
  let '(A, B, C, D) := blocks (List.length p / 64) init p in
  (le_bytes 4 A ++ le_bytes 4 B ++ le_bytes 4 C ++ le_bytes 4 D)%list.

(** [md5.New(); Write([]byte(text)); Sum(nil)]. *)
Definition sum (text : string) : list N := sum_bytes (Bytes.to_N text).

End MD5.

(* ------------------------------------------------------------------ *)
(** ** strings *)

Module Strings.

Definition b (n : nat) : ascii := ascii_of_nat n.

(** The UTF-8 encodings of the code points [unicode.IsSpace] accepts. *)
Definition spaces : list (list ascii) :=
  [ [b 9]; [b 10]; [b 11]; [b 12]; [b 13]; [b 32];
    [b 194; b 133]; [b 194; b 160]; [b 225; b 154; b 128];
    [b 226; b 128; b 128]; [b 226; b 128; b 129]; [b 226; b 128; b 130];
    [b 226; b 128; b 131]; [b 226; b 128; b 132]; [b 226; b 128; b 133];
    [b 226; b 128; b 134]; [b 226; b 128; b 135]; [b 226; b 128; b 136];
    [b 226; b 128; b 137]; [b 226; b 128; b 138]; [b 226; b 128; b 168];
    [b 226; b 128; b 169]; [b 226; b 128; b 175]; [b 226; b 129; b 159];
    [b 227; b 128; b 128] ].

Fixpoint strip_prefix (p l : list ascii) : option (list ascii) :=
  match p, l with
  | [], _ => Some l
  | x :: p', y :: l' => if Ascii.eqb x y then strip_prefix p' l' else None
  | _ :: _, [] => None
  end.

Fixpoint strip_any (ps : list (list ascii)) (l : list ascii)
  : option (list ascii) :=
  match ps with
  | [] => None
  | p :: ps' =>
      match strip_prefix p l with
      | Some r => Some r
      | None => strip_any ps' l
      end
  end.

Fixpoint trim_left (ps : list (list ascii)) (fuel : nat) (l : list ascii)
  : list ascii :=
  match fuel with
  | O => l
  | S f =>
      match strip_any ps l with
      | Some r => trim_left ps f r
      | None => l
      end
  end.

(** [strings.TrimSpace]: leading and trailing white space removed. *)
Definition TrimSpace (s : string) : string :=
  let l := trim_left spaces (String.length s) (Bytes.to_list s) in
  let r := trim_left (map (@rev ascii) spaces) (List.length l) (rev l) in
  Bytes.of_list (rev r).

(** [s] cut around the first [sep]. *)
Fixpoint cut (s : string) (sep : ascii) : option (string * string) :=
  match s with
  | EmptyString => None
  | String c r =>
      if Ascii.eqb c sep then Some (EmptyString, r)
      else match cut r sep with
           | Some (x, y) => Some (String c x, y)
           | None => None
           end
  end.

(** [strings.SplitN(s, sep, n)] for a one-byte separator and [n >= 0]. *)
Fixpoint SplitN (s : string) (sep : ascii) (n : nat) : list string :=
  match n with
  | O => []
  | S O => [s]
  | S m =>
      match cut s sep with
      | Some (x, y) => x :: SplitN y sep m
      | None => [s]
      end
  end.

(** [strings.Split(s, sep)] for a one-byte separator. *)
Fixpoint Split (s : string) (sep : ascii) : list string :=
  match s with
  | EmptyString => [EmptyString]
  | String c r =>
      if Ascii.eqb c sep then EmptyString :: Split r sep
      else match Split r sep with
           | h :: t => String c h :: t
           | [] => [String c EmptyString]
           end
  end.

(** [strings.LastIndex(s, sep)] for a one-byte separator; [None] is -1. *)
Fixpoint LastIndex (s : string) (sep : ascii) : option nat :=
  match s with
  | EmptyString => None
  | String c r =>
      match LastIndex r sep with
      | Some i => Some (S i)
      | None => if Ascii.eqb c sep then Some O else None
      end
  end.

Fixpoint last_byte (s : string) : option ascii :=
  match s with
  | EmptyString => None
  | String c EmptyString => Some c
  | String _ r => last_byte r
  end.

(** [s[:len(s)-1]]. *)
Fixpoint drop_last (s : string) : string :=
  match s with
  | EmptyString => EmptyString
  | String _ EmptyString => EmptyString
  | String c r => String c (drop_last r)
  end.

End Strings.

(* ------------------------------------------------------------------ *)
(** ** encoding/base64, StdEncoding *)

Module Base64.
Local Open Scope N_scope.

Definition enc_char (n : N) : ascii :=
  if n <? 26 then ascii_of_N (65 + n)
  else if n <? 52 then ascii_of_N (71 + n)
  else if n <? 62 then ascii_of_N (n - 4)
  else if n =? 62 then "+"%char else "/"%char.

Fixpoint encode (l : list N) : list ascii :=
  match l with
  | [] => []
  | [x] =>
      [enc_char (N.shiftr x 2); enc_char (N.shiftl (N.land x 3) 4);
       "="%char; "="%char]
  | [x; y] =>
      [enc_char (N.shiftr x 2);
       enc_char (N.lor (N.shiftl (N.land x 3) 4) (N.shiftr y 4));
       enc_char (N.shiftl (N.land y 15) 2); "="%char]
  | x :: y :: z :: r =>
      enc_char (N.shiftr x 2)
      :: enc_char (N.lor (N.shiftl (N.land x 3) 4) (N.shiftr y 4))
      :: enc_char (N.lor (N.shiftl (N.land y 15) 2) (N.shiftr z 6))
      :: enc_char (N.land z 63) :: encode r
  end.

Definition EncodeToString (s : string) : string :=
  Bytes.of_list (encode (Bytes.to_N s)).

Definition dec_char (c : ascii) : option N :=
  let n := N_of_ascii c in
  if (65 <=? n) && (n <=? 90) then Some (n - 65)
  else if (97 <=? n) && (n <=? 122) then Some (n - 71)
  else if (48 <=? n) && (n <=? 57) then Some (n + 4)
  else if n =? 43 then Some 62
  else if n =? 47 then Some 63
  else None.

Definition is_pad (c : ascii) : bool := Ascii.eqb c "="%char.

Fixpoint decode (l : list ascii) : option (list N) :=
  match l with
  | [] => Some []
  | c1 :: c2 :: c3 :: c4 :: r =>
      match dec_char c1, dec_char c2 with
      | Some v1, Some v2 =>
          let b1 := N.lor (N.shiftl v1 2) (N.shiftr v2 4) in
          match dec_char c3, dec_char c4 with
          | Some v3, Some v4 =>
              match decode r with
              | Some t =>
                  Some (b1
                        :: N.land (N.lor (N.shiftl v2 4) (N.shiftr v3 2)) 255
                        :: N.land (N.lor (N.shiftl v3 6) v4) 255 :: t)
              | None => None
              end
          | Some v3, None =>
              if is_pad c4 then
                match r with
                | [] =>
                    Some [b1; N.land (N.lor (N.shiftl v2 4) (N.shiftr v3 2)) 255]
                | _ => None
                end
              else None
          | None, _ =>
              if is_pad c3 && is_pad c4 then
                match r with
                | [] => Some [b1]
                | _ => None
                end
              else None
          end
      | _, _ => None
      end
  | _ => None
  end.

Definition is_newline (c : ascii) : bool :=
  Ascii.eqb c (ascii_of_nat 10) || Ascii.eqb c (ascii_of_nat 13).

(** [StdEncoding.DecodeString]: line breaks are skipped, padding is
    required; [None] stands for a [CorruptInputError]. *)
Definition DecodeString (s : string) : option string :=
  match decode (filter (fun c => negb (is_newline c)) (Bytes.to_list s)) with
  | Some l => Some (Bytes.of_N l)
  | None => None
  end.

End Base64.

(* ------------------------------------------------------------------ *)
(** ** encoding/xml: the token stream and element trees *)

Module Xml.

Record Name := mkName { Space : string; Local : string }.
Record Attr := mkAttr { AttrName : Name; Value : string }.
Record StartElement := mkStart { SName : Name; SAttr : list Attr }.

(** What [Decoder.Token] yields. *)
Inductive Token :=
| TStart (se : StartElement)
| TEnd (n : Name)
| TCharData (s : string)
| TComment (s : string)
| TProcInst (target inst : string)
| TDirective (s : string).

(** The content of an element, as [Unmarshal] walks it. *)
#[warnings="-register-all"]
Inductive Node :=
| Text (s : string)
| Elem (se : StartElement) (kids : list Node).

(** Reads the tokens that follow a start element up to its end element.
    [cur] holds the children read so far (latest first), [stack] the
    elements opened inside and not closed yet.  [None]: the tokens ran out
    before the element was closed. *)
Fixpoint read_body (toks : list Token) (cur : list Node)
    (stack : list (StartElement * list Node))
  : option (list Node * list Token) :=
  match toks with
  | [] => None
  | TStart se :: r => read_body r [] ((se, cur) :: stack)
  | TEnd _ :: r =>
      match stack with
      | [] => Some (rev cur, r)
      | (se, outer) :: st => read_body r (Elem se (rev cur) :: outer) st
      end
  | TCharData s :: r => read_body r (Text s :: cur) stack
  | _ :: r => read_body r cur stack
  end.

(** The tokens up to and including the first start element are consumed. *)
Fixpoint scan_start (toks : list Token) : option (StartElement * list Token) :=
  match toks with
  | [] => None
  | TStart se :: r => Some (se, r)
  | _ :: r => scan_start r
  end.

(** The tokens of an element tree; used to write down what a server sends. *)
Fixpoint tokens (n : Node) : list Token :=
  match n with
  | Text s => [TCharData s]
  | Elem se kids =>
      (TStart se :: flat_map tokens kids ++ [TEnd (SName se)])%list
  end.

(** The character data directly inside an element. *)
Fixpoint chardata (kids : list Node) : string :=
  match kids with
  | [] => EmptyString
  | Text s :: r => s ++ chardata r
  | Elem _ _ :: r => chardata r
  end.

(** A field named [local] in name space [ns] (empty: any) takes the
    element or attribute called [n]. *)
Definition matches (ns local : string) (n : Name) : bool :=
  String.eqb local (Local n)
  && (String.eqb ns EmptyString || String.eqb ns (Space n)).

(** The value of a field tagged [local,attr] after the start tag was
    read: the last attribute that matches, else what the field held. *)
Definition attr_into (local : string) (se : StartElement) (old : string)
  : string :=
  fold_left
    (fun acc a =>
       if matches EmptyString local (AttrName a) then Value a else acc)
    (SAttr se) old.

Definition attr (local : string) (se : StartElement) : string :=
  attr_into local se EmptyString.

(** [strconv.ParseBool] on the trimmed text; the empty text is [false]. *)
Definition parse_bool (s : string) : option bool :=
  let t := Strings.TrimSpace s in
  if String.eqb t "" then Some false
  else if existsb (String.eqb t) ["1"; "t"; "T"; "TRUE"; "true"; "True"]
  then Some true
  else if existsb (String.eqb t) ["0"; "f"; "F"; "FALSE"; "false"; "False"]
  then Some false
  else None.

End Xml.

(* ------------------------------------------------------------------ *)
(** ** xmpp.go *)

Module Xmpp.
Import Xml.

Definition nl : string := String "010"%char EmptyString.
Definition quot : string := String "034"%char EmptyString.
Definition crlf : string := String "013"%char nl.

Definition nsStream := "http://etherx.jabber.org/streams".
Definition nsTLS := "urn:ietf:params:xml:ns:xmpp-tls".
Definition nsSASL := "urn:ietf:params:xml:ns:xmpp-sasl".
Definition nsBind := "urn:ietf:params:xml:ns:xmpp-bind".
Definition nsClient := "jabber:client".
Definition NsSession := "urn:ietf:params:xml:ns:xmpp-session".
Definition nsMUC := "http://jabber.org/protocol/muc".
Definition nsMUCUser := "http://jabber.org/protocol/muc#user".

(** Go's [error] values: the sentinel [io.EOF], which the source compares
    against, and errors made of a message. *)
Inductive error :=
| io_EOF
| errorString (msg : string).

Definition Error (e : error) : string :=
  match e with
  | io_EOF => "EOF"
  | errorString msg => msg
  end.

Definition is_EOF (e : error) : bool :=
  match e with
  | io_EOF => true
  | errorString _ => false
  end.

(** *** Options *)

Record tls_Config := mkConfig { ServerName : string }.

Record Options := mkOptions {
  Host : string;
  User : string;
  Password : string;
  Resource : string;
  TLSConfig : option tls_Config;
  InsecureAllowUnencryptedAuth : bool;
  NoTLS : bool;
  StartTLS : bool;
  Debug : bool;
  Session : bool;
  Status : string;
  StatusMessage : string
}.

(** *** The wire structs

    Fields carry the struct's name as a prefix.  The [XMLName] fields,
    which only name the element a struct is read from, are in [xmlname]. *)

Record tlsStartTLS := mk_tlsStartTLS { starttls_Required : option string }.
Record saslMechanisms := mk_saslMechanisms {
  mechanisms_Mechanism : list string
}.
Record saslFailure := mk_saslFailure { failure_Any : Name }.
Record bindBind := mk_bindBind { bind_Resource : string; bind_Jid : string }.

Record streamFeatures := mk_streamFeatures {
  features_StartTLS : option tlsStartTLS;
  features_Mechanisms : saslMechanisms;
  features_Bind : bindBind;
  features_Session : bool
}.

Record streamError := mk_streamError {
  streamError_Any : Name;
  streamError_Text : string
}.

Record clientError := mk_clientError {
  error_Code : string;
  error_Type : string;
  error_Any : Name;
  error_Text : string
}.

Record clientMessage := mk_clientMessage {
  message_From : string;
  message_Id : string;
  message_To : string;
  message_Type : string;
  message_Subject : string;
  message_Body : string;
  message_Thread : string;
  message_Other : list string
}.

Record clientPresence := mk_clientPresence {
  presence_From : string;
  presence_Id : string;
  presence_To : string;
  presence_Type : string;
  presence_Lang : string;
  presence_Show : string;
  presence_Status : string;
  presence_Priority : string;
  presence_Error : option clientError
}.

Record clientIQ := mk_clientIQ {
  iq_From : string;
  iq_Id : string;
  iq_To : string;
  iq_Type : string;
  iq_Error : clientError;
  iq_Bind : bindBind
}.

(** The types [DecodeElement] is given a pointer to. *)
Inductive gotype :=
| t_streamFeatures | t_streamError
| t_tlsStartTLS | t_tlsProceed | t_tlsFailure
| t_saslMechanisms | t_saslChallenge | t_saslRspAuth
| t_saslAbort | t_saslSuccess | t_saslFailure
| t_bindBind
| t_clientMessage | t_clientPresence | t_clientIQ | t_clientError.

Definition denote (ty : gotype) : Type :=
  match ty with
  | t_streamFeatures => streamFeatures
  | t_streamError => streamError
  | t_tlsStartTLS => tlsStartTLS
  | t_saslMechanisms => saslMechanisms
  | t_saslChallenge | t_saslRspAuth => string
  | t_saslFailure => saslFailure
  | t_bindBind => bindBind
  | t_clientMessage => clientMessage
  | t_clientPresence => clientPresence
  | t_clientIQ => clientIQ
  | t_clientError => clientError
  | t_tlsProceed | t_tlsFailure | t_saslAbort | t_saslSuccess => unit
  end.

(** The [XMLName] tag of a struct: name space and local name. *)
Definition xmlname (ty : gotype) : option (string * string) :=
  match ty with
  | t_streamFeatures => Some (nsStream, "features")
  | t_streamError => Some (nsStream, "error")
  | t_tlsStartTLS => Some (nsTLS, "starttls")
  | t_tlsProceed => Some (nsTLS, "proceed")
  | t_tlsFailure => Some (nsTLS, "failure")
  | t_saslMechanisms => Some (nsSASL, "mechanisms")
  | t_saslChallenge | t_saslRspAuth => None
  | t_saslAbort => Some (nsSASL, "abort")
  | t_saslSuccess => Some (nsSASL, "success")
  | t_saslFailure => Some (nsSASL, "failure")
  | t_bindBind => Some (nsBind, "bind")
  | t_clientMessage => Some (nsClient, "message")
  | t_clientPresence => Some (nsClient, "presence")
  | t_clientIQ => Some (nsClient, "iq")
  | t_clientError => Some (nsClient, "error")
  end.

(** An [interface{}] handed to [DecodeElement]: a pointer to a value of
    one of the types above, or a plain string. *)
Inductive iface :=
| ptr (ty : gotype) (x : denote ty)
| str (s : string).

(** *** Unmarshal, field by field

    Every child element goes to the first field whose tag matches it; a
    field that is matched again is overwritten ([string], struct fields)
    or extended (slices). *)

Definition zeroName : Name := mkName "" "".

Definition each_child {T : Type} (f : T -> StartElement -> list Node -> T)
    (kids : list Node) (z : T) : T :=
  fold_left
    (fun acc n =>
       match n with
       | Elem se k => f acc se k
       | Text _ => acc
       end)
    kids z.

Definition is_field (ns local : string) (se : StartElement) : bool :=
  matches ns local (SName se).

Definition fill_tlsStartTLS (x : tlsStartTLS) (kids : list Node)
  : tlsStartTLS :=
  each_child
    (fun acc se k =>
       if is_field "" "required" se then mk_tlsStartTLS (Some (chardata k))
       else acc)
    kids x.

Definition fill_saslMechanisms (x : saslMechanisms) (kids : list Node)
  : saslMechanisms :=
  each_child
    (fun acc se k =>
       if is_field "" "mechanism" se
       then mk_saslMechanisms (mechanisms_Mechanism acc ++ [chardata k])
       else acc)
    kids x.

Definition fill_bindBind (x : bindBind) (kids : list Node) : bindBind :=
  each_child
    (fun acc se k =>
       if is_field "" "Resource" se then mk_bindBind (chardata k) (bind_Jid acc)
       else if is_field "" "jid" se
       then mk_bindBind (bind_Resource acc) (chardata k)
       else acc)
    kids x.

Definition fill_saslFailure (x : saslFailure) (kids : list Node)
  : saslFailure :=
  each_child
    (fun acc se k =>
       if is_field "" "Any" se then mk_saslFailure (SName se) else acc)
    kids x.

Definition fill_streamError (x : streamError) (kids : list Node)
  : streamError :=
  each_child
    (fun acc se k =>
       if is_field "" "Any" se
       then mk_streamError (SName se) (streamError_Text acc)
       else if is_field "" "Text" se
       then mk_streamError (streamError_Any acc) (chardata k)
       else acc)
    kids x.

Definition fill_clientError (se0 : StartElement) (x : clientError)
    (kids : list Node) : clientError :=
  each_child
    (fun acc se k =>
       if is_field "" "Any" se
       then mk_clientError (error_Code acc) (error_Type acc) (SName se)
              (error_Text acc)
       else if is_field "" "Text" se
       then mk_clientError (error_Code acc) (error_Type acc) (error_Any acc)
              (chardata k)
       else acc)
    kids
    (mk_clientError (attr_into "Code" se0 (error_Code x))
       (attr_into "Type" se0 (error_Type x)) (error_Any x) (error_Text x)).

Definition zero_bindBind := mk_bindBind "" "".
Definition zero_clientError := mk_clientError "" "" zeroName "".
Definition zero_streamFeatures :=
  mk_streamFeatures None (mk_saslMechanisms []) zero_bindBind false.

(** [Session bool] is read with [strconv.ParseBool]; a text that is no
    boolean makes the whole [Unmarshal] fail. *)
Definition fill_streamFeatures (x : streamFeatures) (kids : list Node)
  : string + streamFeatures :=
  each_child
    (fun r se k =>
       match r with
       | inl e => inl e
       | inr acc =>
           if is_field nsTLS "starttls" se then
             let old := match features_StartTLS acc with
                        | Some t => t
                        | None => mk_tlsStartTLS None
                        end in
             inr (mk_streamFeatures (Some (fill_tlsStartTLS old k))
                    (features_Mechanisms acc) (features_Bind acc)
                    (features_Session acc))
           else if is_field nsSASL "mechanisms" se then
             inr (mk_streamFeatures (features_StartTLS acc)
                    (fill_saslMechanisms (features_Mechanisms acc) k)
                    (features_Bind acc) (features_Session acc))
           else if is_field nsBind "bind" se then
             inr (mk_streamFeatures (features_StartTLS acc)
                    (features_Mechanisms acc)
                    (fill_bindBind (features_Bind acc) k)
                    (features_Session acc))
           else if is_field "" "Session" se then
             match parse_bool (chardata k) with
             | Some v =>
                 inr (mk_streamFeatures (features_StartTLS acc)
                        (features_Mechanisms acc) (features_Bind acc) v)
             | None =>
                 inl ("strconv.ParseBool: parsing " ++ quot ++ chardata k
                      ++ quot ++ ": invalid syntax")
             end
           else inr acc
       end)
    kids (inr x).

Definition fill_clientMessage (se0 : StartElement) (kids : list Node)
  : clientMessage :=
  each_child
    (fun acc se k =>
       let '(mk_clientMessage f i t ty sub body th oth) := acc in
       if is_field "" "subject" se
       then mk_clientMessage f i t ty (chardata k) body th oth
       else if is_field "" "body" se
       then mk_clientMessage f i t ty sub (chardata k) th oth
       else if is_field "" "thread" se
       then mk_clientMessage f i t ty sub body (chardata k) oth
       else mk_clientMessage f i t ty sub body th (oth ++ [chardata k]))
    kids
    (mk_clientMessage (attr "from" se0) (attr "id" se0) (attr "to" se0)
       (attr "type" se0) "" "" "" []).

Definition fill_clientPresence (se0 : StartElement) (kids : list Node)
  : clientPresence :=
  each_child
    (fun acc se k =>
       let '(mk_clientPresence f i t ty l show st pr er) := acc in
       if is_field "" "show" se
       then mk_clientPresence f i t ty l (chardata k) st pr er
       else if is_field nsClient "error" se
       then let old := match er with
                       | Some e => e
                       | None => zero_clientError
                       end in
            mk_clientPresence f i t ty l show st pr
              (Some (fill_clientError se old k))
       else acc)
    kids
    (mk_clientPresence (attr "from" se0) (attr "id" se0) (attr "to" se0)
       (attr "type" se0) (attr "lang" se0) "" (attr "status" se0)
       (attr "priority" se0) None).

Definition fill_clientIQ (se0 : StartElement) (kids : list Node) : clientIQ :=
  each_child
    (fun acc se k =>
       let '(mk_clientIQ f i t ty er bd) := acc in
       if is_field nsClient "error" se
       then mk_clientIQ f i t ty (fill_clientError se er k) bd
       else if is_field nsBind "bind" se
       then mk_clientIQ f i t ty er (fill_bindBind bd k)
       else acc)
    kids
    (mk_clientIQ (attr "From" se0) (attr "Id" se0) (attr "To" se0)
       (attr "Type" se0) zero_clientError zero_bindBind).

(** The value [Unmarshal] leaves in a zero value of type [ty] from an
    element with start tag [se] and content [kids]. *)
Definition unmarshal (ty : gotype) (se : StartElement) (kids : list Node)
  : string + denote ty :=
  match ty return string + denote ty with
  | t_streamFeatures => fill_streamFeatures zero_streamFeatures kids
  | t_streamError => inr (fill_streamError (mk_streamError zeroName "") kids)
  | t_tlsStartTLS => inr (fill_tlsStartTLS (mk_tlsStartTLS None) kids)
  | t_saslMechanisms => inr (fill_saslMechanisms (mk_saslMechanisms []) kids)
  | t_saslChallenge => inr (chardata kids)
  | t_saslRspAuth => inr (chardata kids)
  | t_saslFailure => inr (fill_saslFailure (mk_saslFailure zeroName) kids)
  | t_bindBind => inr (fill_bindBind zero_bindBind kids)
  | t_clientMessage => inr (fill_clientMessage se kids)
  | t_clientPresence => inr (fill_clientPresence se kids)
  | t_clientIQ => inr (fill_clientIQ se kids)
  | t_clientError => inr (fill_clientError se zero_clientError kids)
  | t_tlsProceed => inr tt
  | t_tlsFailure => inr tt
  | t_saslAbort => inr tt
  | t_saslSuccess => inr tt
  end.

(** The check of the start tag against [XMLName]. *)
Definition check_name (ty : gotype) (se : StartElement) : option string :=
  match xmlname ty with
  | None => None
  | Some (ns, local) =>
      if negb (String.eqb local (Local (SName se))) then
        Some ("expected element type <" ++ local ++ "> but have <"
              ++ Local (SName se) ++ ">")
      else if negb (String.eqb ns (Space (SName se))) then
        Some ("expected element <" ++ local ++ "> in name space " ++ ns
              ++ " but have "
              ++ (if String.eqb (Space (SName se)) "" then "no name space"
                  else Space (SName se)))
      else None
  end.

(** *** The client and its surroundings

    One record holds what the functions of xmpp.go read and change: the
    [Client] ([c.conn], [c.jid]; [c.p] is a decoder over [c.conn] and reads
    the tokens held there) and the outside world they call into. *)

Record World := mkWorld {
  (* the process environment and the network, as [connect] sees them *)
  HTTP_PROXY : string;
  http_proxy : string;
  proxy_host : option string;
  dial_err : option error;
  dialed : list string;
  proxy_resp : error + (nat * string);
  (* the outcome of each TLS handshake, in order; none left: success *)
  handshakes : list (option error);
  verify_hostname : string -> option error;
  (* what [rand.Reader] yields: a 64-bit number, or a failure; none left: 0 *)
  rand : list (error + N);
  (* [c.conn]: whether it is a [*tls.Conn], the frames written to it
     (oldest first), the tokens a decoder over it will read, the error
     reading reports once they are used up, the outcome of the next
     writes (none left: success), whether it was closed *)
  tls : bool;
  out : list string;
  inp : list Token;
  rd_err : error;
  wr_errs : list (option error);
  closed : bool;
  (* [c.jid] *)
  jid : string
}.

Definition set_dialed (v : list string) (w : World) : World :=
    mkWorld (HTTP_PROXY w) (http_proxy w) (proxy_host w) (dial_err w) v
    (proxy_resp w) (handshakes w) (verify_hostname w) (rand w) (tls w) (out w)
    (inp w) (rd_err w) (wr_errs w) (closed w) (jid w).
Definition set_handshakes (v : list (option error)) (w : World) : World :=
    mkWorld (HTTP_PROXY w) (http_proxy w) (proxy_host w) (dial_err w) (dialed
    w) (proxy_resp w) v (verify_hostname w) (rand w) (tls w) (out w) (inp w)
    (rd_err w) (wr_errs w) (closed w) (jid w).
Definition set_rand (v : list (error + N)) (w : World) : World :=
    mkWorld (HTTP_PROXY w) (http_proxy w) (proxy_host w) (dial_err w) (dialed
    w) (proxy_resp w) (handshakes w) (verify_hostname w) v (tls w) (out w)
    (inp w) (rd_err w) (wr_errs w) (closed w) (jid w).
Definition set_tls (v : bool) (w : World) : World :=
    mkWorld (HTTP_PROXY w) (http_proxy w) (proxy_host w) (dial_err w) (dialed
    w) (proxy_resp w) (handshakes w) (verify_hostname w) (rand w) v (out w)
    (inp w) (rd_err w) (wr_errs w) (closed w) (jid w).
Definition set_out (v : list string) (w : World) : World :=
    mkWorld (HTTP_PROXY w) (http_proxy w) (proxy_host w) (dial_err w) (dialed
    w) (proxy_resp w) (handshakes w) (verify_hostname w) (rand w) (tls w) v
    (inp w) (rd_err w) (wr_errs w) (closed w) (jid w).
Definition set_inp (v : list Token) (w : World) : World :=
    mkWorld (HTTP_PROXY w) (http_proxy w) (proxy_host w) (dial_err w) (dialed
    w) (proxy_resp w) (handshakes w) (verify_hostname w) (rand w) (tls w) (out
    w) v (rd_err w) (wr_errs w) (closed w) (jid w).
Definition set_wr_errs (v : list (option error)) (w : World) : World :=
    mkWorld (HTTP_PROXY w) (http_proxy w) (proxy_host w) (dial_err w) (dialed
    w) (proxy_resp w) (handshakes w) (verify_hostname w) (rand w) (tls w) (out
    w) (inp w) (rd_err w) v (closed w) (jid w).
Definition set_closed (v : bool) (w : World) : World :=
    mkWorld (HTTP_PROXY w) (http_proxy w) (proxy_host w) (dial_err w) (dialed
    w) (proxy_resp w) (handshakes w) (verify_hostname w) (rand w) (tls w) (out
    w) (inp w) (rd_err w) (wr_errs w) v (jid w).
Definition set_jid (v : string) (w : World) : World :=
    mkWorld (HTTP_PROXY w) (http_proxy w) (proxy_host w) (dial_err w) (dialed
    w) (proxy_resp w) (handshakes w) (verify_hostname w) (rand w) (tls w) (out
    w) (inp w) (rd_err w) (wr_errs w) (closed w) v.

(** *** Outcomes and the monad of the code

    A Go function returns a value or an [error], panics, ends the process
    ([log.Fatal]), or is still looping when the fuel is used up.  [fuel]
    bounds the iterations of each [for] loop that has no other bound. *)

Inductive outcome (A : Type) :=
| Ret (a : A)
| Err (e : error)
| Panic (msg : string)
| Fatal (e : error)
| Spin.
Arguments Ret {A} a.
Arguments Err {A} e.
Arguments Panic {A} msg.
Arguments Fatal {A} e.
Arguments Spin {A}.

Definition M (A : Type) : Type := nat -> World -> outcome A * World.

Definition ret {A} (a : A) : M A := fun _ w => (Ret a, w).
Definition fail {A} (e : error) : M A := fun _ w => (Err e, w).
Definition panic {A} (msg : string) : M A := fun _ w => (Panic msg, w).
Definition fatal {A} (e : error) : M A := fun _ w => (Fatal e, w).

Definition bind {A B} (m : M A) (k : A -> M B) : M B :=
  fun fuel w =>
    match m fuel w with
    | (Ret a, w') => k a fuel w'
    | (Err e, w') => (Err e, w')
    | (Panic msg, w') => (Panic msg, w')
    | (Fatal e, w') => (Fatal e, w')
    | (Spin, w') => (Spin, w')
    end.

Notation "x <- m ;; k" := (bind m (fun x => k))
  (at level 61, m at next level, right associativity).
Notation "m ;;; k" := (bind m (fun _ => k))
  (at level 61, right associativity).

Definition gets {A} (f : World -> A) : M A := fun _ w => (Ret (f w), w).
Definition modify (f : World -> World) : M unit := fun _ w => (Ret tt, f w).

Definition errors_New {A} (msg : string) : M A := fail (errorString msg).

(** [fmt.Fprintf(c.conn, ...)] with the formatted text [s]: the frame is
    handed to the connection, and the write reports an error or not. *)
Definition Fprintf (s : string) : M (option error) :=
  fun _ w =>
    match wr_errs w with
    | [] => (Ret None, set_out (out w ++ [s]) w)
    | r :: rest => (Ret r, set_wr_errs rest (set_out (out w ++ [s]) w))
    end.

(** [Handshake()] of a TLS client. *)
Definition Handshake : M (option error) :=
  fun _ w =>
    match handshakes w with
    | [] => (Ret None, w)
    | r :: rest => (Ret r, set_handshakes rest w)
    end.

(** Eight bytes of [rand.Reader], as a number below 2^64. *)
Definition rand_uint64 : M (error + N) :=
  fun _ w =>
    match rand w with
    | [] => (Ret (inr 0%N), w)
    | inr n :: rest =>
        (Ret (inr (N.land n 0xFFFFFFFFFFFFFFFF)), set_rand rest w)
    | inl e :: rest => (Ret (inl e), set_rand rest w)
    end.

Definition Cookie := N.

Definition getCookie : M Cookie :=
  r <- rand_uint64 ;;
  match r with
  | inl err => panic ("Failed to read random bytes: " ++ Error err)
  | inr n => ret n
  end.

Definition cnonce : M string :=
  r <- rand_uint64 ;;
  match r with
  | inl _ => ret ""
  | inr cn => ret (Fmt.x_uint_pad 16 cn)
  end.

(** *** The XML decoder [c.p] *)

(** [p.Token()]: the next token, or the connection's read error, which
    every later call reports again. *)
Definition Decoder_Token (w : World)
  : (option Xml.Token * option error) * World :=
  match inp w with
  | t :: r => ((Some t, None), set_inp r w)
  | [] => ((None, Some (rd_err w)), w)
  end.

(** [p.DecodeElement(&x, start)] for [x] a zero value of type [ty].  With
    no [start], the decoder first reads up to the next start element; any
    error ends that scan. *)
Definition decodeInto (ty : gotype) (start : option StartElement)
  : M (denote ty) :=
  fun _ w =>
    let found :=
      match start with
      | Some se => Some (se, inp w)
      | None => scan_start (inp w)
      end in
    match found with
    | None => (Err (rd_err w), set_inp [] w)
    | Some (se, toks) =>
        match check_name ty se with
        | Some msg => (Err (errorString msg), set_inp toks w)
        | None =>
            match read_body toks [] [] with
            | None => (Err (rd_err w), set_inp [] w)
            | Some (kids, rest) =>
                match unmarshal ty se kids with
                | inl msg => (Err (errorString msg), set_inp rest w)
                | inr x => (Ret x, set_inp rest w)
                end
            end
        end
    end.

(** The zero value of each type, for [&T{}]. *)
Definition zero (ty : gotype) : denote ty :=
  match ty return denote ty with
  | t_streamFeatures => zero_streamFeatures
  | t_streamError => mk_streamError zeroName ""
  | t_tlsStartTLS => mk_tlsStartTLS None
  | t_saslMechanisms => mk_saslMechanisms []
  | t_saslChallenge => ""
  | t_saslRspAuth => ""
  | t_saslFailure => mk_saslFailure zeroName
  | t_bindBind => zero_bindBind
  | t_clientMessage => mk_clientMessage "" "" "" "" "" "" "" []
  | t_clientPresence => mk_clientPresence "" "" "" "" "" "" "" "" None
  | t_clientIQ => mk_clientIQ "" "" "" "" zero_clientError zero_bindBind
  | t_clientError => zero_clientError
  | t_tlsProceed => tt
  | t_tlsFailure => tt
  | t_saslAbort => tt
  | t_saslSuccess => tt
  end.

(** [p.DecodeElement(v, start)] for an interface value [v]: a value that
    is not a pointer is refused before anything is read. *)
Definition DecodeElement (v : iface) (start : option StartElement)
  : M iface :=
  match v with
  | ptr ty _ => x <- decodeInto ty start ;; ret (ptr ty x)
  | str _ => errors_New "non-pointer passed to Unmarshal"
  end.

(** *** xmlEscape *)

Definition xmlSpecial (c : ascii) : option string :=
  if Ascii.eqb c "<"%char then Some "&lt;"
  else if Ascii.eqb c ">"%char then Some "&gt;"
  else if Ascii.eqb c "034"%char then Some "&quot;"
  else if Ascii.eqb c "'"%char then Some "&apos;"
  else if Ascii.eqb c "&"%char then Some "&amp;"
  else None.

Fixpoint xmlEscape (s : string) : string :=
  match s with
  | EmptyString => EmptyString
  | String c r =>
      match xmlSpecial c with
      | Some e => e ++ xmlEscape r
      | None => String c (xmlEscape r)
      end
  end.

(** *** saslDigestResponse *)

Definition saslDigestResponse
    (username realm passwd nonce cnonceStr authenticate digestUri
       nonceCountStr : string) : string :=
  let h := fun text : string => MD5.sum text in
  let hex := fun bytes : list N => Fmt.x_bytes bytes in
  let kd := fun secret data : string => h (secret ++ ":" ++ data) in
  let a1 := Bytes.of_N (h (username ++ ":" ++ realm ++ ":" ++ passwd)) ++ ":"
            ++ nonce ++ ":" ++ cnonceStr in
  let a2 := authenticate ++ ":" ++ digestUri in
  let response := hex (kd (hex (h a1))
                         (nonce ++ ":" ++ nonceCountStr ++ ":" ++ cnonceStr
                          ++ ":auth:" ++ hex (h a2))) in
  response.

(** *** nextStart and next *)

(** The [for] loop of [nextStart]; one unit of fuel per iteration. *)
Fixpoint nextStart_loop (fuel : nat) (w : World)
  : outcome StartElement * World :=
  match fuel with
  | O => (Spin, w)
  | S fuel' =>
      let '((t, err), w1) := Decoder_Token w in
      let not_nil_not_EOF :=
        match err with
        | Some e => negb (is_EOF e)
        | None => false
        end in
      if not_nil_not_EOF then
        (match err with
         | Some e => Err e
         | None => Spin
         end, w1)
      else
        match t with
        | Some (TStart se) => (Ret se, w1)
        | _ => nextStart_loop fuel' w1
        end
  end.

Definition nextStart : M StartElement := nextStart_loop.

Definition next : M (Name * iface) :=
  se <- nextStart ;;
  let key := Space (SName se) ++ " " ++ Local (SName se) in
  let decode := fun nv : iface =>
    nv' <- DecodeElement nv (Some se) ;;
    ret (SName se, nv') in
  if String.eqb key (nsStream ++ " features")
  then decode (ptr t_streamFeatures (zero _))
  else if String.eqb key (nsStream ++ " error")
  then decode (ptr t_streamError (zero _))
  else if String.eqb key (nsTLS ++ " starttls")
  then decode (ptr t_tlsStartTLS (zero _))
  else if String.eqb key (nsTLS ++ " proceed")
  then decode (ptr t_tlsProceed (zero _))
  else if String.eqb key (nsTLS ++ " failure")
  then decode (ptr t_tlsFailure (zero _))
  else if String.eqb key (nsSASL ++ " mechanisms")
  then decode (ptr t_saslMechanisms (zero _))
  else if String.eqb key (nsSASL ++ " challenge")
  then decode (str "")
  else if String.eqb key (nsSASL ++ " response")
  then decode (str "")
  else if String.eqb key (nsSASL ++ " abort")
  then decode (ptr t_saslAbort (zero _))
  else if String.eqb key (nsSASL ++ " success")
  then decode (ptr t_saslSuccess (zero _))
  else if String.eqb key (nsSASL ++ " failure")
  then decode (ptr t_saslFailure (zero _))
  else if String.eqb key (nsBind ++ " bind")
  then decode (ptr t_bindBind (zero _))
  else if String.eqb key (nsClient ++ " message")
  then decode (ptr t_clientMessage (zero _))
  else if String.eqb key (nsClient ++ " presence")
  then decode (ptr t_clientPresence (zero _))
  else if String.eqb key (nsClient ++ " iq")
  then decode (ptr t_clientIQ (zero _))
  else if String.eqb key (nsClient ++ " error")
  then decode (ptr t_clientError (zero _))
  else errors_New ("unexpected XMPP message " ++ Space (SName se) ++ " <"
                   ++ Local (SName se) ++ "/>").

(** *** connect *)

Definition len2 (a : list string) : option (string * string) :=
  match a with
  | [x; y] => Some (x, y)
  | _ => None
  end.

(** The value of the variable [host] once [connect] has filled in the
    domain of [user] and the default port. *)
Definition connect_host (host user : string) : string :=
  let host :=
    if String.eqb (Strings.TrimSpace host) "" then
      match len2 (Strings.SplitN user "@" 2) with
      | Some (_, d) => d
      | None => host
      end
    else host in
  match Strings.SplitN host ":" 2 with
  | [_] => host ++ ":5222"
  | _ => host
  end.

Definition net_Dial (addr : string) : M unit :=
  modify (fun w => set_dialed (dialed w ++ [addr]) w) ;;;
  e <- gets dial_err ;;
  match e with
  | Some err => fail err
  | None => ret tt
  end.

Definition connect (host user passwd : string) : M unit :=
  let addr := host in
  let host := connect_host host user in
  proxy <- gets HTTP_PROXY ;;
  proxy <- (if String.eqb proxy "" then gets http_proxy else ret proxy) ;;
  addr <- (if negb (String.eqb proxy "") then
             u <- gets proxy_host ;;
             match u with
             | Some h => ret h
             | None => ret addr
             end
           else ret addr) ;;
  net_Dial addr ;;;
  if negb (String.eqb proxy "") then
    Fprintf ("CONNECT " ++ host ++ " HTTP/1.1" ++ crlf) ;;;
    Fprintf ("Host: " ++ host ++ crlf) ;;;
    Fprintf crlf ;;;
    resp <- gets proxy_resp ;;
    match resp with
    | inl err => fail err
    | inr (StatusCode, Status) =>
        if negb (Nat.eqb StatusCode 200) then
          match Strings.SplitN Status " " 2 with
          | [_; f1] => errors_New f1
          | _ => panic "index out of range"
          end
        else ret tt
    end
  else ret tt.

(** *** The methods of Client *)

Definition Close : M (option error) :=
  fun _ w => (Ret None, set_closed true w).

Definition IsEncrypted : M bool := gets tls.

Definition JoinMUC (jid : string) : M unit :=
  Fprintf ("<presence to='" ++ xmlEscape jid ++ "'>" ++ nl
           ++ "<x xmlns='" ++ nsMUC ++ "'><history maxstanzas='0'/></x>" ++ nl
           ++ "</presence>") ;;;
  ret tt.

Definition LeaveMUC (jid_ : string) : M unit :=
  cjid <- gets jid ;;
  Fprintf ("<presence from='" ++ cjid ++ "' to='" ++ xmlEscape jid_
           ++ "' type='unavailable' />") ;;;
  ret tt.

Definition KeepAlive : M unit := Fprintf " " ;;; ret tt.

Definition ChangeStatus (show status : string) : M unit :=
  Fprintf ("<presence xml:lang='en'><show>" ++ xmlEscape show
           ++ "</show><status>" ++ xmlEscape status ++ "</status></presence>") ;;;
  ret tt.

Record Chat := mkChat {
  Remote : string;
  Type_ : string;
  Text_ : string;
  Other : list string
}.

Record Presence := mkPresence {
  From : string;
  To : string;
  PType : string;
  Show : string
}.

Inductive event :=
| ev_Chat (c : Chat)
| ev_Presence (p : Presence).

Definition Send (chat : Chat) : M unit :=
  err <- Fprintf ("<message to='" ++ xmlEscape (Remote chat) ++ "' type='"
                  ++ xmlEscape (Type_ chat) ++ "' xml:lang='en'>"
                  ++ "<body>" ++ xmlEscape (Text_ chat) ++ "</body></message>") ;;
  match err with
  | Some e => fatal e
  | None => ret tt
  end.

Definition SendOrg (org : string) : M unit := Fprintf org ;;; ret tt.

(** The [for] loop of [Recv]; one unit of [n] per iteration. *)
Fixpoint Recv_loop (n : nat) : M event :=
  match n with
  | O => fun _ w => (Spin, w)
  | S n' =>
      r <- next ;;
      match snd r with
      | ptr t_clientMessage v =>
          ret (ev_Chat (mkChat (message_From v) (message_Type v)
                          (message_Body v) (message_Other v)))
      | ptr t_clientPresence v =>
          ret (ev_Presence (mkPresence (presence_From v) (presence_To v)
                              (presence_Type v) (presence_Show v)))
      | _ => Recv_loop n'
      end
  end.

Definition Recv : M event := fun fuel => Recv_loop fuel fuel.

(** *** startStream and startTlsIfRequired *)

(** [e] is returned with [what] put before its message. *)
Definition wrap_err {A} (what : string) (m : M A) : M A :=
  fun fuel w =>
    match m fuel w with
    | (Err e, w') => (Err (errorString (what ++ Error e)), w')
    | r => r
    end.

Definition startStream (o : Options) (domain : string) : M streamFeatures :=
  err <- Fprintf ("<?xml version='1.0'?>" ++ nl
                  ++ "<stream:stream to='" ++ xmlEscape domain ++ "' xmlns='"
                  ++ nsClient ++ "'" ++ nl
                  ++ " xmlns:stream='" ++ nsStream ++ "' version='1.0'>" ++ nl) ;;
  match err with
  | Some e => fail e
  | None =>
      se <- nextStart ;;
      if negb (String.eqb (Space (SName se)) nsStream)
         || negb (String.eqb (Local (SName se)) "stream")
      then errors_New ("expected <stream> but got <" ++ Local (SName se)
                       ++ "> in " ++ Space (SName se))
      else
        wrap_err "unmarshal <features>: " (decodeInto t_streamFeatures None)
  end.

Definition startTlsIfRequired (f : streamFeatures) (o : Options)
    (domain : string) : M streamFeatures :=
  let perform : M streamFeatures :=
    Fprintf ("<starttls xmlns='urn:ietf:params:xml:ns:xmpp-tls'/>" ++ nl) ;;;
    wrap_err "unmarshal <proceed>: " (decodeInto t_tlsProceed None) ;;;
    herr <- Handshake ;;
    match herr with
    | Some e => errors_New ("starttls handshake: " ++ Error e)
    | None =>
        modify (set_tls true) ;;;
        startStream o domain
    end in
  match features_StartTLS f with
  | None => ret f
  | Some st =>
      match starttls_Required st with
      | Some _ => perform
      | None => if negb (StartTLS o) then perform else perform
      end
  end.

(** *** init *)

(** [kv[1]] with a pair of enclosing double quotes removed, as the token
    loop does it: [kv[1][0]] needs a first byte, and the slice
    [kv[1][1 : len(kv[1])-1]] needs two. *)
Definition unquote (v : string) : string + string :=
  match v with
  | EmptyString => inl "index out of range"
  | String c r =>
      if Ascii.eqb c "034"%char
         && match Strings.last_byte v with
            | Some l => Ascii.eqb l "034"%char
            | None => false
            end
      then match r with
           | EmptyString => inl "slice bounds out of range"
           | _ => inr (Strings.drop_last r)
           end
      else inr v
  end.

(** The map [tokens], latest assignment first. *)
Fixpoint parse_tokens (l : list string) (tokens : list (string * string))
  : string + list (string * string) :=
  match l with
  | [] => inr tokens
  | token :: rest =>
      match len2 (Strings.SplitN (Strings.TrimSpace token) "=" 2) with
      | Some (k, v) =>
          match unquote v with
          | inl msg => inl msg
          | inr v' => parse_tokens rest ((k, v') :: tokens)
          end
      | None => parse_tokens rest tokens
      end
  end.

Fixpoint lookup (tokens : list (string * string)) (k : string) : string :=
  match tokens with
  | [] => ""
  | (k', v) :: r => if String.eqb k k' then v else lookup r k
  end.

Definition invalid_username {A} (o : Options) : M A :=
  errors_New ("xmpp: invalid username (want user@domain): " ++ User o).

Definition base64_DecodeString (s : string) : M string :=
  match Base64.DecodeString s with
  | Some b => ret b
  | None => errors_New "illegal base64 data"
  end.

Definition auth_DIGEST_MD5 (o : Options) (user domain : string) : M unit :=
  Fprintf ("<auth xmlns='" ++ nsSASL ++ "' mechanism='DIGEST-MD5'/>" ++ nl) ;;;
  ch <- wrap_err "unmarshal <challenge>: " (decodeInto t_saslChallenge None) ;;
  b <- base64_DecodeString ch ;;
  match parse_tokens (Strings.Split b ",") [] with
  | inl msg => panic msg
  | inr tokens =>
      let realm := lookup tokens "realm" in
      let nonce := lookup tokens "nonce" in
      let qop := lookup tokens "qop" in
      let charset := lookup tokens "charset" in
      cnonceStr <- cnonce ;;
      let digestUri := "xmpp/" ++ domain in
      let nonceCount := Fmt.x_uint_pad 8 1 in
      let digest := saslDigestResponse user realm (Password o) nonce cnonceStr
                      "AUTHENTICATE" digestUri nonceCount in
      let message :=
        "username=" ++ quot ++ user ++ quot ++ ", realm=" ++ quot ++ realm
        ++ quot ++ ", nonce=" ++ quot ++ nonce ++ quot ++ ", cnonce=" ++ quot
        ++ cnonceStr ++ quot ++ ", nc=" ++ nonceCount ++ ", qop=" ++ qop
        ++ ", digest-uri=" ++ quot ++ digestUri ++ quot ++ ", response="
        ++ digest ++ ", charset=" ++ charset in
      Fprintf ("<response xmlns='" ++ nsSASL ++ "'>"
               ++ Base64.EncodeToString message ++ "</response>" ++ nl) ;;;
      rspauth <- wrap_err "unmarshal <challenge>: "
                   (decodeInto t_saslRspAuth None) ;;
      base64_DecodeString rspauth ;;;
      Fprintf ("<response xmlns='" ++ nsSASL ++ "'/>" ++ nl) ;;;
      ret tt
  end.

(** The [for] loop of [init] over [f.Mechanisms.Mechanism]; the result is
    the variable [mechanism] after the loop. *)
Fixpoint init_mechanisms (o : Options) (ms : list string) : M string :=
  match ms with
  | [] => ret ""
  | m :: rest =>
      if String.eqb m "ANONYMOUS" then
        Fprintf ("<auth xmlns='" ++ nsSASL ++ "' mechanism='ANONYMOUS' />"
                 ++ nl) ;;;
        ret m
      else
        match len2 (Strings.SplitN (User o) "@" 2) with
        | None => invalid_username o
        | Some (user, domain) =>
            if String.eqb m "PLAIN" then
              let raw := String "000"%char user
                         ++ String "000"%char (Password o) in
              let enc := Base64.EncodeToString raw in
              Fprintf ("<auth xmlns='" ++ nsSASL ++ "' mechanism='PLAIN'>"
                       ++ enc ++ "</auth>" ++ nl) ;;;
              ret m
            else if String.eqb m "DIGEST-MD5" then
              auth_DIGEST_MD5 o user domain ;;;
              ret m
            else init_mechanisms o rest
        end
  end.

(** [&iq.Bind == nil]: the address of a field of a variable is never nil. *)
Definition address_is_nil {A} (field : A) : bool := false.

Definition refusal : string :=
  "refusing to authenticate over unencrypted TCP connection".

(** [c.p = xml.NewDecoder(c.conn)] changes nothing here: a decoder reads
    what the connection holds.  With [o.Debug] the bytes read are copied to
    the standard output, which is outside this model. *)
Definition init (o : Options) : M unit :=
  match len2 (Strings.SplitN (User o) "@" 2) with
  | None => invalid_username o
  | Some (_, domain) =>
      f <- startStream o domain ;;
      f <- startTlsIfRequired f o domain ;;
      enc <- IsEncrypted ;;
      if negb enc && negb (InsecureAllowUnencryptedAuth o) then
        errors_New refusal
      else
        let advertised := mechanisms_Mechanism (features_Mechanisms f) in
        mechanism <- init_mechanisms o advertised ;;
        if String.eqb mechanism "" then
          errors_New ("PLAIN authentication is not an option: "
                      ++ Fmt.v_strings advertised)
        else
          r <- next ;;
          let '(name, val) := r in
          match val with
          | ptr t_saslSuccess _ => ret tt
          | ptr t_saslFailure v =>
              errors_New ("auth failure: " ++ Local (failure_Any v))
          | _ =>
              errors_New ("expected <success> or <failure>, got <" ++ Local name
                          ++ "> in " ++ Space name)
          end ;;;
          f <- startStream o domain ;;
          cookie <- getCookie ;;
          (if String.eqb (Resource o) "" then
             Fprintf ("<iq type='set' id='" ++ Fmt.x_uint cookie
                      ++ "'><bind xmlns='" ++ nsBind ++ "'></bind></iq>" ++ nl)
           else
             Fprintf ("<iq type='set' id='" ++ Fmt.x_uint cookie
                      ++ "'><bind xmlns='" ++ nsBind ++ "'><resource>"
                      ++ Resource o ++ "</resource></bind></iq>" ++ nl)) ;;;
          iq <- wrap_err "unmarshal <iq>: " (decodeInto t_clientIQ None) ;;
          if address_is_nil (iq_Bind iq) then
            errors_New "<iq> result missing <bind>"
          else
            modify (set_jid (bind_Jid (iq_Bind iq))) ;;;
            (if Session o then
               Fprintf ("<iq to='" ++ xmlEscape domain ++ "' type='set' id='"
                        ++ Fmt.x_uint cookie ++ "'><session xmlns='"
                        ++ NsSession ++ "'/></iq>") ;;;
               ret tt
             else ret tt) ;;;
            Fprintf ("<presence xml:lang='en'><show>" ++ Status o
                     ++ "</show><status>" ++ StatusMessage o
                     ++ "</status></presence>") ;;;
            ret tt
  end.

(** *** NewClient *)

(** [if err := m; err != nil { client.Close(); return nil, err }]. *)
Definition close_on_error {A} (m : M A) : M A :=
  fun fuel w =>
    match m fuel w with
    | (Err e, w') => (Err e, snd (Close fuel w'))
    | r => r
    end.

Definition NewClient (o : Options) : M unit :=
  let host := Host o in
  connect host (User o) (Password o) ;;;
  (if NoTLS o then modify (set_tls false)
   else
     herr <- Handshake ;;
     match herr with
     | Some e => fail e
     | None =>
         let host :=
           match Strings.LastIndex (Host o) ":" with
           | Some (S i) => String.substring 0 (S i) host
           | _ => host
           end in
         verr <- gets (fun w => verify_hostname w host) ;;
         match verr with
         | Some e => fail e
         | None => modify (set_tls true)
         end
     end) ;;;
  close_on_error (init o).

End Xmpp.

(* ------------------------------------------------------------------ *)
(** ** What the specification compares the code with *)

Module Spec.
Import Xmpp.

(** The five named entities of XML and the characters they stand for. *)
Definition entities : list (string * ascii) :=
  [ ("lt;", "<"%char); ("gt;", ">"%char); ("quot;", "034"%char);
    ("apos;", "'"%char); ("amp;", "&"%char) ].

Fixpoint strip (p s : string) : option string :=
  match p, s with
  | EmptyString, _ => Some s
  | String x p', String y s' => if Ascii.eqb x y then strip p' s' else None
  | String _ _, EmptyString => None
  end.

(** The entity [s] starts with, after its ampersand. *)
Fixpoint strip_entity (es : list (string * ascii)) (s : string)
  : option (ascii * string) :=
  match es with
  | [] => None
  | (e, c) :: es' =>
      match strip e s with
      | Some r => Some (c, r)
      | None => strip_entity es' s
      end
  end.

Fixpoint unescape (fuel : nat) (s : string) : string :=
  match fuel with
  | O => s
  | S f =>
      match s with
      | EmptyString => EmptyString
      | String c r =>
          if Ascii.eqb c "&"%char then
            match strip_entity entities r with
            | Some (x, rest) => String x (unescape f rest)
            | None => String c (unescape f r)
            end
          else String c (unescape f r)
      end
  end.

(** Entity decoding as an XML parser does it for the named entities: each
    of them is replaced by its character, everything else is kept. *)
Definition xmlUnescape (s : string) : string := unescape (String.length s) s.

(** Every ampersand of [t] starts one of the five entities. *)
Fixpoint amp_ok (t : string) : bool :=
  match t with
  | EmptyString => true
  | String c r =>
      (if Ascii.eqb c "&"%char
       then match strip_entity entities r with
            | Some _ => true
            | None => false
            end
       else true) && amp_ok r
  end.

Definition is_special (c : ascii) : bool :=
  existsb (Ascii.eqb c) ["<"; ">"; "034"; "'"; "&"]%char.

(** The response of RFC 2831 in the specification's words:
    [H_] is MD5, [HEX] lower-case hexadecimal, [KD(k, d) = H(k ":" d)],
    [A1 = H(user ":" realm ":" password) ":" nonce ":" cnonce] with the
    inner digest as its 16 raw bytes, [A2 = authenticate ":" digest-uri]. *)
Definition H_ (x : string) : list N := MD5.sum x.
Definition HEX (x : list N) : string := Fmt.x_bytes x.
Definition KD (k d : string) : list N := H_ (k ++ ":" ++ d).
Definition digest_response
    (user realm password nonce cnonce authenticate digest_uri nc : string)
  : string :=
  let A1 := Bytes.of_N (H_ (user ++ ":" ++ realm ++ ":" ++ password)) ++ ":"
            ++ nonce ++ ":" ++ cnonce in
  let A2 := authenticate ++ ":" ++ digest_uri in
  HEX (KD (HEX (H_ A1))
         (nonce ++ ":" ++ nc ++ ":" ++ cnonce ++ ":auth:" ++ HEX (H_ A2))).

(** The mechanisms the client can run. *)
Definition supported (m : string) : bool :=
  existsb (String.eqb m) ["ANONYMOUS"; "PLAIN"; "DIGEST-MD5"].

(** Mechanism selection in the specification's words: the first advertised
    mechanism, in the server's order, that is supported. *)
Definition first_supported (advertised : list string) : option string :=
  find supported advertised.

(** A frame that opens SASL authentication. *)
Definition is_auth_frame (frame : string) : bool := prefix "<auth" frame.

(** The frame that opens authentication with mechanism [m]. *)
Definition is_auth_frame_for (m frame : string) : bool :=
  prefix ("<auth xmlns='" ++ nsSASL ++ "' mechanism='" ++ m ++ "'") frame.

End Spec.

(* ------------------------------------------------------------------ *)
(** ** What a computation may do to the connection *)

Module Frame.
Import Xmpp.

(** From [w] to [w'] the connection stays a TLS connection if it was one,
    and the frames written are all [ok]. *)
Definition writes (ok : string -> Prop) (w w' : World) : Prop :=
  (tls w = true -> tls w' = true)
  /\ exists l, out w' = (out w ++ l)%list /\ Forall ok l.

Definition keeps (ok : string -> Prop) {A : Type} (m : M A) : Prop :=
  forall fuel w, writes ok w (snd (m fuel w)).

Definition any_frame : string -> Prop := fun _ => True.
Definition no_auth : string -> Prop := fun fr => Spec.is_auth_frame fr = false.

End Frame.

(* ------------------------------------------------------------------ *)
(** ** Servers and options to run the code on *)

Module Scenario.
Import Xml Xmpp.

Definition el (ns local : string) (kids : list Node) : Node :=
  Elem (mkStart (mkName ns local) []) kids.

(** The server's [<stream:stream>] start tag. *)
Definition open_stream : Token := TStart (mkStart (mkName nsStream "stream") []).

Definition features (kids : list Node) : list Token :=
  tokens (el nsStream "features" kids).

Definition mechanisms (l : list string) : Node :=
  el nsSASL "mechanisms" (map (fun m => el nsSASL "mechanism" [Text m]) l).

(** A world with no proxy, a network and a TLS layer that never fail,
    and a server that sends [toks] and then closes the connection. *)
Definition world (toks : list Token) (encrypted : bool) : World :=
  mkWorld "" "" None None [] (inr (200, "200 OK")) [] (fun _ => None) []
    encrypted [] toks io_EOF [] false "".

Definition options : Options :=
  mkOptions "example.com" "user@example.com" "pass" "bot" None
    false false false false false "" "".

(** PLAIN, success, and a bind reply with content [bind_reply]. *)
Definition plain_session (bind_reply : list Node) : list Token :=
  (TProcInst "xml" "version='1.0'" :: open_stream
     :: features [mechanisms ["PLAIN"]]
     ++ tokens (el nsSASL "success" [])
     ++ open_stream :: features [el nsBind "bind" []]
     ++ tokens (el nsClient "iq" bind_reply))%list.

Definition bound_as (j : string) : list Node :=
  [el nsBind "bind" [el nsBind "jid" [Text j]]].

(** The server offers STARTTLS without requiring it. *)
Definition starttls_offered : streamFeatures :=
  mk_streamFeatures (Some (mk_tlsStartTLS None)) (mk_saslMechanisms ["PLAIN"])
    zero_bindBind false.

Definition starttls_frame : string :=
  "<starttls xmlns='urn:ietf:params:xml:ns:xmpp-tls'/>" ++ nl.

(** The server closes the stream and the connection. *)
Definition closed_stream : World :=
  world [TEnd (mkName nsStream "stream")] true.

Definition challenge (text : string) : list Token :=
  tokens (el nsSASL "challenge" [Text text]).

(** A plain-text server that offers PLAIN and no STARTTLS. *)
Definition plain_text_server : World :=
  world (open_stream :: features [mechanisms ["PLAIN"]]) false.

(** The options of [NewClientNoTLS]. *)
Definition plain_text_options : Options :=
  mkOptions "example.com" "user@example.com" "pass" "" None
    false true false false false "" "".

Definition with_status (show status : string) : Options :=
  mkOptions "example.com" "user@example.com" "pass" "bot" None
    false false false false false show status.

(** A server behind TLS whose list of mechanisms starts with one the
    client does not know. *)
Definition digest_server : World :=
  world (open_stream
           :: features [mechanisms ["X-OAUTH2"; "DIGEST-MD5"; "PLAIN"]]) true.

(** A plain-text server that offers STARTTLS without requiring it, and a
    full session after the upgrade. *)
Definition starttls_optional_server : World :=
  world (open_stream
           :: features [el nsTLS "starttls" []; mechanisms ["PLAIN"]]
           ++ tokens (el nsTLS "proceed" [])
           ++ plain_session (bound_as "user@example.com/bot"))%list false.

(** The connection breaks with an error that is not [io.EOF]. *)
Definition reset_stream : World :=
  mkWorld "" "" None None [] (inr (200, "200 OK")) [] (fun _ => None) []
    true [] [TEnd (mkName nsStream "stream")]
    (errorString "connection reset by peer") [] false "".


(** A plain-text server whose first element is not a stream. *)
Definition no_stream_server : World :=
  world (features [mechanisms ["PLAIN"]]) false.

End Scenario.

(* ------------------------------------------------------------------ *)
(** ** Reading without writing *)

Module Reads.
Import Xml Xmpp.

(** From [w] to [w'] tokens were taken off the front of the input and
    nothing else changed. *)
Definition reads_only (w w' : World) : Prop :=
  w' = set_inp (inp w') w /\ exists taken, inp w = (taken ++ inp w')%list.

(** The element names [next] has a case for. *)
Definition next_names : list (string * string) :=
  [ (nsStream, "features"); (nsStream, "error");
    (nsTLS, "starttls"); (nsTLS, "proceed"); (nsTLS, "failure");
    (nsSASL, "mechanisms"); (nsSASL, "challenge"); (nsSASL, "response");
    (nsSASL, "abort"); (nsSASL, "success"); (nsSASL, "failure");
    (nsBind, "bind");
    (nsClient, "message"); (nsClient, "presence"); (nsClient, "iq");
    (nsClient, "error") ].

Definition has_space (s : string) : bool :=
  existsb (Ascii.eqb " "%char) (Bytes.to_list s).

(** The text [startStream] sends to open a stream to [domain]. *)
Definition stream_header (domain : string) : string :=
  "<?xml version='1.0'?>" ++ nl
  ++ "<stream:stream to='" ++ xmlEscape domain ++ "' xmlns='" ++ nsClient
  ++ "'" ++ nl
  ++ " xmlns:stream='" ++ nsStream ++ "' version='1.0'>" ++ nl.

(** The frame [Send] writes for [chat]. *)
Definition message_frame (chat : Chat) : string :=
  "<message to='" ++ xmlEscape (Remote chat) ++ "' type='"
  ++ xmlEscape (Type_ chat) ++ "' xml:lang='en'>"
  ++ "<body>" ++ xmlEscape (Text_ chat) ++ "</body></message>".

(** What [connect] writes to a proxy to reach [target]. *)
Definition connect_request (target : string) : list string :=
  [ "CONNECT " ++ target ++ " HTTP/1.1" ++ crlf;
    "Host: " ++ target ++ crlf;
    crlf ].

(** The presence element with [show] and [status] put in as they are. *)
Definition presence_frame (show status : string) : string :=
  "<presence xml:lang='en'><show>" ++ show ++ "</show><status>" ++ status
  ++ "</status></presence>".

Definition is_lower_hex (c : ascii) : bool :=
  existsb (Ascii.eqb c) (Bytes.to_list "0123456789abcdef").

End Reads.

(* ------------------------------------------------------------------ *)
(** * Properties *)

Import Xml Xmpp Spec Frame.

Example md5_empty : Fmt.x_bytes (MD5.sum "") = "d41d8cd98f00b204e9800998ecf8427e".
Proof. vm_compute. reflexivity. Qed.

Example md5_abc : Fmt.x_bytes (MD5.sum "abc") = "900150983cd24fb0d6963f7d28e17f72".
Proof. vm_compute. reflexivity. Qed.

Example md5_two_blocks :
  Fmt.x_bytes (MD5.sum
    "12345678901234567890123456789012345678901234567890123456789012345678901234567890")
  = "57edf4a22be3c955ac49da2e2107b67a".
Proof. vm_compute. reflexivity. Qed.

Example base64_plain :
  Base64.EncodeToString (String "000" ("user" ++ String "000" "pass"))
  = "AHVzZXIAcGFzcw==".
Proof. vm_compute. reflexivity. Qed.

Example base64_decode :
  Base64.DecodeString "aGVsbG8gd29ybGQ=" = Some "hello world"
  /\ Base64.DecodeString "aA=" = None.
Proof. vm_compute. auto. Qed.

(** The run of scenario S1 of the specification: PLAIN over TLS ends bound
    to the JID the server reports. *)
Example plain_over_tls :
  let r := init Scenario.options 8
             (Scenario.world
                (Scenario.plain_session (Scenario.bound_as "user@example.com/bot"))
                true) in
  fst r = Ret tt /\ jid (snd r) = "user@example.com/bot" /\ tls (snd r) = true.
Proof. vm_compute. auto. Qed.

(** Scenario S5: the frame [JoinMUC] writes. *)
Example join_muc :
  out (snd (JoinMUC "room@conf.example.com/nick" 0 (Scenario.world [] true)))
  = ["<presence to='room@conf.example.com/nick'>" ++ nl
     ++ "<x xmlns='http://jabber.org/protocol/muc'><history maxstanzas='0'/></x>"
     ++ nl ++ "</presence>"].
Proof. reflexivity. Qed.

(** Scenario S6: [Recv] skips an [<iq>] and returns the message after it. *)
Example recv_dispatch :
  fst (Recv 4
         (Scenario.world
            (tokens (Scenario.el nsClient "iq" [])
             ++ tokens
                  (Elem (mkStart (mkName nsClient "message")
                           [mkAttr (mkName "" "from") "a@b";
                            mkAttr (mkName "" "type") "chat"])
                     [Scenario.el nsClient "body" [Text "hi"]]))
            true))
  = Ret (ev_Chat (mkChat "a@b" "chat" "hi" [])).
Proof. vm_compute. reflexivity. Qed.

(** ** The DIGEST-MD5 response *)

(** C3: on the example of RFC 2831, section 4, [saslDigestResponse]
    returns the response the RFC gives, d388dad90d4bbd760a152321f2143af7,
    and on every input it is the value of the RFC's formula
    HEX(KD(HEX(H(A1)), nonce:nc:cnonce:auth:HEX(H(A2)))) with A1 built on
    the raw bytes of H(user:realm:password). *)
Theorem saslDigestResponse_rfc2831 :
  saslDigestResponse "chris" "elwood.innosoft.com" "secret" "OA6MG9tEQGm2hh"
    "OA6MHXh6VqTrRk" "AUTHENTICATE" "imap/elwood.innosoft.com" "00000001"
  = "d388dad90d4bbd760a152321f2143af7"
  /\ (forall user realm password nonce cnonce authenticate digest_uri nc,
        saslDigestResponse user realm password nonce cnonce authenticate
          digest_uri nc
        = digest_response user realm password nonce cnonce authenticate
            digest_uri nc).
Proof.
  split.
  - vm_compute. reflexivity.
  - intros. reflexivity.
Qed.

(** ** xmlEscape *)

Lemma xmlSpecial_spec (c : ascii) :
  (c = "<"%char /\ xmlSpecial c = Some "&lt;")
  \/ (c = ">"%char /\ xmlSpecial c = Some "&gt;")
  \/ (c = "034"%char /\ xmlSpecial c = Some "&quot;")
  \/ (c = "'"%char /\ xmlSpecial c = Some "&apos;")
  \/ (c = "&"%char /\ xmlSpecial c = Some "&amp;")
  \/ (xmlSpecial c = None /\ is_special c = false).
Proof.
  unfold xmlSpecial, is_special; simpl.
  destruct (Ascii.eqb_spec c "<"); [subst; auto |].
  destruct (Ascii.eqb_spec c ">"); [subst; auto |].
  destruct (Ascii.eqb_spec c "034"); [subst; auto 6 |].
  destruct (Ascii.eqb_spec c "'"); [subst; auto 7 |].
  destruct (Ascii.eqb_spec c "&"); [subst; auto 8 |].
  auto 10.
Qed.

Lemma is_special_false (c : ascii) :
  is_special c = false ->
  c <> "<"%char /\ c <> ">"%char /\ c <> "034"%char /\ c <> "'"%char
  /\ c <> "&"%char.
Proof.
  unfold is_special; simpl; intros H.
  repeat split; intros ->; discriminate H.
Qed.

Lemma append_assoc (a b c : string) : (a ++ b) ++ c = a ++ (b ++ c).
Proof. induction a; simpl; congruence. Qed.

Lemma xmlEscape_app (a b : string) :
  xmlEscape (a ++ b) = xmlEscape a ++ xmlEscape b.
Proof.
  induction a as [| c a IH]; simpl; [reflexivity |].
  rewrite IH. destruct (xmlSpecial c); simpl; [| reflexivity].
  now rewrite append_assoc.
Qed.

Lemma to_list_app (a b : string) :
  Bytes.to_list (a ++ b) = (Bytes.to_list a ++ Bytes.to_list b)%list.
Proof. induction a; simpl; congruence. Qed.

(** No markup character survives escaping. *)
Lemma xmlEscape_no_markup (s : string) (c : ascii) :
  In c (Bytes.to_list (xmlEscape s)) ->
  c <> "<"%char /\ c <> ">"%char /\ c <> "034"%char /\ c <> "'"%char.
Proof.
  induction s as [| c0 r IH]; simpl; [tauto |].
  destruct (xmlSpecial_spec c0)
    as [[-> E] | [[-> E] | [[-> E] | [[-> E] | [[-> E] | [E N]]]]]];
    rewrite E; rewrite ?to_list_app; simpl; intros H;
    repeat (destruct H as [<- | H];
            [repeat split; discriminate |]);
    try (apply IH; assumption).
  destruct H as [<- | H]; [| apply IH; assumption].
  apply is_special_false in N. tauto.
Qed.

Lemma xmlEscape_amp_ok (s : string) : amp_ok (xmlEscape s) = true.
Proof.
  induction s as [| c0 r IH]; simpl; [reflexivity |].
  destruct (xmlSpecial_spec c0)
    as [[-> E] | [[-> E] | [[-> E] | [[-> E] | [[-> E] | [E N]]]]]];
    rewrite E; simpl; try exact IH.
  apply is_special_false in N.
  destruct (Ascii.eqb_spec c0 "&"); [tauto | exact IH].
Qed.

Lemma strip_sound (p s r : string) : strip p s = Some r -> s = p ++ r.
Proof.
  revert s; induction p as [| x p IH]; intros [| y s]; simpl; try congruence.
  destruct (Ascii.eqb_spec x y); [subst | discriminate].
  intros H; apply IH in H; now subst.
Qed.

Lemma strip_entity_sound (es : list (string * ascii)) (s : string) c r :
  strip_entity es s = Some (c, r) -> exists e, In (e, c) es /\ s = e ++ r.
Proof.
  induction es as [| [e x] es IH]; simpl; [discriminate |].
  destruct (strip e s) eqn:E.
  - intros [= <- <-]. exists e; split; [auto | now apply strip_sound].
  - intros H; destruct (IH H) as [e' [? ?]]; eauto.
Qed.

Lemma amp_ok_entity (pre post : string) :
  amp_ok (pre ++ String "&" post) = true ->
  exists e c r, In (e, c) entities /\ post = e ++ r.
Proof.
  induction pre as [| x pre IH].
  - change (amp_ok ("" ++ String "&" post))
      with (match strip_entity entities post with
            | Some _ => true
            | None => false
            end && amp_ok post).
    destruct (strip_entity entities post) as [[c r] |] eqn:E; [| discriminate].
    intros _. apply strip_entity_sound in E as [e [? ?]]; eauto.
  - cbn [append amp_ok]. intros H; apply andb_prop in H as [_ H]; auto.
Qed.

Lemma unescape_escape (s : string) :
  forall fuel, String.length (xmlEscape s) <= fuel ->
               unescape fuel (xmlEscape s) = s.
Proof.
  induction s as [| c0 r IH]; intros fuel; simpl.
  - destruct fuel; reflexivity.
  - destruct (xmlSpecial_spec c0)
      as [[-> E] | [[-> E] | [[-> E] | [[-> E] | [[-> E] | [E N]]]]]];
      rewrite E; simpl; intros L;
      (destruct fuel as [| fuel]; [lia |]); simpl;
      try (f_equal; apply IH; lia).
    apply is_special_false in N.
    destruct (Ascii.eqb_spec c0 "&"); [tauto |].
    f_equal; apply IH; lia.
Qed.

(** C10: the output of [xmlEscape] holds none of the characters [<], [>],
    double quote and apostrophe; each of its ampersands starts one of the
    five named entities; a byte that is not special is copied as it is, at
    its place; and decoding the entities gives the input back. *)
Theorem xmlEscape_sound (s : string) :
  (forall c, In c (Bytes.to_list (xmlEscape s)) ->
             c <> "<"%char /\ c <> ">"%char /\ c <> "034"%char
             /\ c <> "'"%char)
  /\ (forall pre post, xmlEscape s = pre ++ String "&" post ->
        exists e c r, In (e, c) entities /\ post = e ++ r)
  /\ (forall a c b, s = a ++ String c b -> is_special c = false ->
        xmlEscape s = xmlEscape a ++ String c (xmlEscape b))
  /\ xmlUnescape (xmlEscape s) = s.
Proof.
  repeat split.
  - apply xmlEscape_no_markup in H; tauto.
  - apply xmlEscape_no_markup in H; tauto.
  - apply xmlEscape_no_markup in H; tauto.
  - apply xmlEscape_no_markup in H; tauto.
  - intros pre post E. apply (amp_ok_entity pre post).
    rewrite <- E. apply xmlEscape_amp_ok.
  - intros a c b -> N. rewrite xmlEscape_app; simpl.
    destruct (xmlSpecial_spec c)
      as [[-> E] | [[-> E] | [[-> E] | [[-> E] | [[-> E] | [E _]]]]]];
      try discriminate N.
    now rewrite E.
  - unfold xmlUnescape. apply unescape_escape. lia.
Qed.

(** ** What each step does to the connection *)

Section Keeps.
Variable ok : string -> Prop.

Lemma writes_refl (w : World) : writes ok w w.
Proof.
  split; [auto |]. exists []. split; [now rewrite app_nil_r | constructor].
Qed.

Lemma writes_trans (a b c : World) :
  writes ok a b -> writes ok b c -> writes ok a c.
Proof.
  intros [T1 [l1 [E1 F1]]] [T2 [l2 [E2 F2]]]. split; [auto |].
  exists (l1 ++ l2)%list. split.
  - now rewrite E2, E1, app_assoc.
  - apply Forall_app; auto.
Qed.

(** A change that leaves [tls] and [out] alone. *)
Lemma writes_same (w w' : World) :
  tls w' = tls w -> out w' = out w -> writes ok w w'.
Proof.
  intros T O. split; [congruence |].
  exists []. split; [now rewrite app_nil_r | constructor].
Qed.

Lemma keeps_ret {A} (a : A) : keeps ok (ret a).
Proof. intros fuel w; apply writes_refl. Qed.

Lemma keeps_fail {A} (e : error) : keeps ok (@fail A e).
Proof. intros fuel w; apply writes_refl. Qed.

Lemma keeps_errors_New {A} (msg : string) : keeps ok (@errors_New A msg).
Proof. intros fuel w; apply writes_refl. Qed.

Lemma keeps_panic {A} (msg : string) : keeps ok (@panic A msg).
Proof. intros fuel w; apply writes_refl. Qed.

Lemma keeps_fatal {A} (e : error) : keeps ok (@fatal A e).
Proof. intros fuel w; apply writes_refl. Qed.

Lemma keeps_gets {A} (f : World -> A) : keeps ok (gets f).
Proof. intros fuel w; apply writes_refl. Qed.

Lemma keeps_bind {A B} (m : M A) (k : A -> M B) :
  keeps ok m -> (forall a, keeps ok (k a)) -> keeps ok (bind m k).
Proof.
  intros Hm Hk fuel w. unfold bind.
  specialize (Hm fuel w). destruct (m fuel w) as [[a | e | msg | e |] w'];
    simpl in *; try assumption.
  eapply writes_trans; [eassumption | apply Hk].
Qed.

Lemma keeps_wrap_err {A} (what : string) (m : M A) :
  keeps ok m -> keeps ok (wrap_err what m).
Proof.
  intros Hm fuel w. unfold wrap_err. specialize (Hm fuel w).
  destruct (m fuel w) as [[a | e | msg | e |] w']; assumption.
Qed.

Lemma keeps_Fprintf (s : string) : ok s -> keeps ok (Fprintf s).
Proof.
  intros Hs fuel w. unfold Fprintf.
  destruct (wr_errs w); simpl; (split; [auto |]);
    exists [s]; split; auto.
Qed.

Lemma keeps_Handshake : keeps ok Handshake.
Proof.
  intros fuel w. unfold Handshake.
  destruct (handshakes w); simpl; [apply writes_refl |].
  now apply writes_same.
Qed.

Lemma keeps_set_tls : keeps ok (modify (set_tls true)).
Proof.
  intros fuel w. simpl. split; [auto |].
  exists []. split; [now rewrite app_nil_r | constructor].
Qed.

Lemma keeps_set_jid (j : string) : keeps ok (modify (set_jid j)).
Proof. intros fuel w. now apply writes_same. Qed.

Lemma keeps_rand_uint64 : keeps ok rand_uint64.
Proof.
  intros fuel w. unfold rand_uint64.
  destruct (rand w) as [| [e | n] r]; simpl;
    [apply writes_refl | |]; now apply writes_same.
Qed.

Lemma keeps_getCookie : keeps ok getCookie.
Proof.
  apply keeps_bind; [apply keeps_rand_uint64 |].
  intros [e | n]; [apply keeps_panic | apply keeps_ret].
Qed.

Lemma keeps_cnonce : keeps ok cnonce.
Proof.
  apply keeps_bind; [apply keeps_rand_uint64 |].
  intros [e | n]; apply keeps_ret.
Qed.

Lemma keeps_decodeInto (ty : gotype) (start : option StartElement) :
  keeps ok (decodeInto ty start).
Proof.
  intros fuel w. unfold decodeInto.
  destruct (match start with
            | Some se => Some (se, inp w)
            | None => scan_start (inp w)
            end) as [[se toks] |]; [| now apply writes_same].
  destruct (check_name ty se); [now apply writes_same |].
  destruct (read_body toks [] []) as [[kids rest] |]; [| now apply writes_same].
  destruct (unmarshal ty se kids); now apply writes_same.
Qed.

Lemma keeps_DecodeElement (v : iface) (start : option StartElement) :
  keeps ok (DecodeElement v start).
Proof.
  destruct v as [ty x | s]; simpl.
  - apply keeps_bind; [apply keeps_decodeInto | intros; apply keeps_ret].
  - apply keeps_errors_New.
Qed.

Lemma keeps_nextStart : keeps ok nextStart.
Proof.
  intros fuel. unfold nextStart.
  induction fuel as [| fuel IH]; intros w; simpl; [apply writes_refl |].
  unfold Decoder_Token.
  destruct (inp w) as [| t r] eqn:E.
  - destruct (rd_err w); simpl; [apply IH | apply writes_refl].
  - simpl. destruct t; try (eapply writes_trans; [| apply IH]);
      now apply writes_same.
Qed.

Lemma keeps_next : keeps ok next.
Proof.
  unfold next. apply keeps_bind; [apply keeps_nextStart |]. intros se.
  repeat match goal with
         | |- keeps _ (if ?b then _ else _) => destruct b
         end;
    try apply keeps_errors_New;
    (apply keeps_bind; [apply keeps_DecodeElement | intros; apply keeps_ret]).
Qed.

End Keeps.

Ltac keeps_step :=
  match goal with
  | |- keeps _ (bind _ _) => apply keeps_bind; [| intros]
  | |- keeps _ (ret _) => apply keeps_ret
  | |- keeps _ (errors_New _) => apply keeps_errors_New
  | |- keeps _ (invalid_username _) => apply keeps_errors_New
  | |- keeps _ (fail _) => apply keeps_fail
  | |- keeps _ (panic _) => apply keeps_panic
  | |- keeps _ (gets _) => apply keeps_gets
  | |- keeps _ IsEncrypted => apply keeps_gets
  | |- keeps _ (Fprintf _) => apply keeps_Fprintf; first [exact I | reflexivity]
  | |- keeps _ (wrap_err _ _) => apply keeps_wrap_err
  | |- keeps _ (decodeInto _ _) => apply keeps_decodeInto
  | |- keeps _ (base64_DecodeString _) => unfold base64_DecodeString
  | |- keeps _ nextStart => apply keeps_nextStart
  | |- keeps _ next => apply keeps_next
  | |- keeps _ Handshake => apply keeps_Handshake
  | |- keeps _ getCookie => apply keeps_getCookie
  | |- keeps _ cnonce => apply keeps_cnonce
  | |- keeps _ (modify (set_tls true)) => apply keeps_set_tls
  | |- keeps _ (modify (set_jid _)) => apply keeps_set_jid
  | |- keeps _ (if ?b then _ else _) => destruct b
  | |- keeps _ (match ?x with _ => _ end) => destruct x
  | x : denote ?ty |- keeps _ _ => is_var ty; destruct ty
  end.

(** Opening a stream and STARTTLS write no authentication frame. *)
Lemma keeps_startStream (ok : string -> Prop) (o : Options) (domain : string) :
  ok = any_frame \/ ok = no_auth -> keeps ok (startStream o domain).
Proof.
  intros [-> | ->]; unfold startStream; repeat keeps_step.
Qed.

Lemma keeps_startTlsIfRequired (ok : string -> Prop) (f : streamFeatures)
    (o : Options) (domain : string) :
  ok = any_frame \/ ok = no_auth -> keeps ok (startTlsIfRequired f o domain).
Proof.
  intros Hok.
  assert (keeps ok (startStream o domain)) by now apply keeps_startStream.
  destruct Hok as [-> | ->]; unfold startTlsIfRequired;
    repeat first [assumption | keeps_step].
Qed.

Lemma keeps_auth_DIGEST_MD5 (o : Options) (user domain : string) :
  keeps any_frame (auth_DIGEST_MD5 o user domain).
Proof. unfold auth_DIGEST_MD5; repeat keeps_step. Qed.

Lemma keeps_init_mechanisms (o : Options) (ms : list string) :
  keeps any_frame (init_mechanisms o ms).
Proof.
  induction ms as [| m rest IH]; simpl; [apply keeps_ret |].
  repeat first [assumption | apply keeps_auth_DIGEST_MD5 | keeps_step].
Qed.

(** Nothing in [init] turns a TLS connection back into a plain one, and
    frames are only ever added. *)
Lemma keeps_init (o : Options) : keeps any_frame (init o).
Proof.
  unfold init.
  repeat first [ apply keeps_init_mechanisms
               | apply keeps_startStream; now left
               | apply keeps_startTlsIfRequired; now left
               | keeps_step ].
Qed.

(** ** The unencrypted-authentication policy *)

Lemma bind_eq {A B} (m : M A) (k : A -> M B) (fuel : nat) (w : World) :
  bind m k fuel w =
  match m fuel w with
  | (Ret a, w') => k a fuel w'
  | (Err e, w') => (Err e, w')
  | (Panic msg, w') => (Panic msg, w')
  | (Fatal e, w') => (Fatal e, w')
  | (Spin, w') => (Spin, w')
  end.
Proof. reflexivity. Qed.

(** A run that returns [a] is the pair of [Ret a] and its final state. *)
Lemma returned {A} (p : outcome A * World) (a : A) :
  fst p = Ret a -> p = (Ret a, snd p).
Proof. destruct p as [r w]; simpl; now intros ->. Qed.

Lemma returned_error {A} (p : outcome A * World) (e : error) :
  fst p = Err e -> p = (Err e, snd p).
Proof. destruct p as [r w]; simpl; now intros ->. Qed.

Ltac keeps_init_tail :=
  cbv beta;
  repeat first [ apply keeps_init_mechanisms
               | apply keeps_startStream; first [now left | now right]
               | apply keeps_startTlsIfRequired; first [now left | now right]
               | keeps_step ].









(** ** Mechanism selection *)

Lemma Fprintf_then {A} (ok : string -> Prop) (s : string) (k : M A) :
  keeps ok k ->
  forall fuel w, exists rest,
    out (snd ((Fprintf s ;;; k) fuel w)) = (out w ++ s :: rest)%list
    /\ Forall ok rest.
Proof.
  intros Hk fuel w. rewrite bind_eq. unfold Fprintf.
  destruct (wr_errs w) as [| r errs]; cbv iota;
    match goal with
    | |- context [k fuel ?w'] => destruct (Hk fuel w') as [_ [l [E F]]]
    end;
    exists l; (split; [| assumption]); rewrite E; simpl;
    now rewrite <- app_assoc.
Qed.

Lemma bind_assoc {A B C} (m : M A) (k1 : A -> M B) (k2 : B -> M C)
    (fuel : nat) (w : World) :
  bind (bind m k1) k2 fuel w = bind m (fun x => bind (k1 x) k2) fuel w.
Proof.
  rewrite !bind_eq. destruct (m fuel w) as [[a | e | msg | e |] w'];
    reflexivity.
Qed.

Lemma bind_ret_value {A B} (m : M A) (c b : B) (fuel : nat) (w : World) :
  fst (bind m (fun _ => ret c) fuel w) = Ret b -> b = c.
Proof.
  rewrite bind_eq. destruct (m fuel w) as [[a | e | msg | e |] w'];
    simpl; congruence.
Qed.

(** What the loop over the advertised mechanisms does: nothing until the
    first supported mechanism, whose [<auth>] frame is then the only one
    written. *)
Lemma init_mechanisms_first (o : Options) (u d : string) (ms : list string) :
  len2 (Strings.SplitN (User o) "@" 2) = Some (u, d) ->
  forall fuel w,
    match first_supported ms with
    | Some m =>
        exists fr rest,
          is_auth_frame_for m fr = true
          /\ out (snd (init_mechanisms o ms fuel w)) = (out w ++ fr :: rest)%list
          /\ Forall no_auth rest
          /\ (forall m', fst (init_mechanisms o ms fuel w) = Ret m' -> m' = m)
    | None => init_mechanisms o ms fuel w = (Ret "", w)
    end.
Proof.
  intros L fuel w. unfold first_supported.
  induction ms as [| m rest IH]; [reflexivity |].
  cbn [find init_mechanisms]. unfold supported. cbn [existsb].
  rewrite L.
  destruct (String.eqb_spec m "ANONYMOUS") as [-> | N1].
  { cbn [orb].
    match goal with |- context [Fprintf ?s] => exists s, [] end.
    split; [reflexivity |].
    rewrite bind_eq. unfold Fprintf.
    destruct (wr_errs w); simpl; repeat split; try constructor;
      now intros ? [= <-]. }
  destruct (String.eqb_spec m "PLAIN") as [-> | N2].
  { cbn [orb].
    match goal with |- context [Fprintf ?s] => exists s, [] end.
    split; [reflexivity |].
    rewrite bind_eq. unfold Fprintf.
    destruct (wr_errs w); simpl; repeat split; try constructor;
      now intros ? [= <-]. }
  destruct (String.eqb_spec m "DIGEST-MD5") as [-> | N3].
  { cbn [orb]. unfold auth_DIGEST_MD5.
    match goal with
    | |- context [bind (bind (Fprintf ?s) ?k1) ?k2] =>
        assert (Kt : keeps no_auth (bind (k1 None) k2 : M string))
    end.
    { repeat keeps_step. }
    match goal with
    | |- context [bind (bind (Fprintf ?s) ?k1) ?k2] =>
        destruct (Fprintf_then no_auth s (bind (k1 None) k2) Kt fuel w)
          as [rest' [E F]];
        exists s, rest'
    end.
    split; [reflexivity |]. rewrite bind_assoc.
    split; [exact E |]. split; [exact F |].
    intros m'. rewrite <- bind_assoc. apply bind_ret_value. }
  cbn [orb]. exact IH.
Qed.

Lemma prefix_app (s r : string) : prefix s (s ++ r) = true.
Proof.
  induction s as [| c s IH]; simpl; [destruct r; reflexivity |].
  destruct (ascii_dec c c); [assumption | congruence].
Qed.

Lemma contains_here (s r : string) : Bytes.contains (s ++ r) s = true.
Proof.
  destruct s; simpl; [destruct r; reflexivity |].
  destruct (ascii_dec a a); [| congruence].
  now rewrite prefix_app.
Qed.

Lemma contains_skip (p t s : string) :
  Bytes.contains t s = true -> Bytes.contains (p ++ t) s = true.
Proof.
  intros H. induction p as [| c p IH]; [exact H |].
  cbn [append Bytes.contains]. rewrite IH. apply orb_true_r.
Qed.

Lemma prefix_keep (s : string) :
  forall t q, prefix s t = true -> prefix s (t ++ q) = true.
Proof.
  induction s as [| c s IH]; intros [| x t] q; simpl; try congruence.
  - destruct q; reflexivity.
  - destruct (ascii_dec c x); [apply IH | congruence].
Qed.

Lemma contains_keep (t q s : string) :
  Bytes.contains t s = true -> Bytes.contains (t ++ q) s = true.
Proof.
  induction t as [| c t IH]; intros H.
  - simpl in H. rewrite orb_false_r in H. destruct s; [| discriminate].
    destruct q; reflexivity.
  - cbn [append Bytes.contains] in *. apply orb_prop in H as [H | H].
    + change (String c (t ++ q)) with (String c t ++ q).
      now rewrite (prefix_keep _ _ _ H).
    + rewrite (IH H). apply orb_true_r.
Qed.

Lemma append_nil_r (s : string) : s ++ "" = s.
Proof. induction s; simpl; congruence. Qed.

Lemma contains_concat (sep : string) (l : list string) (m : string) :
  In m l -> Bytes.contains (String.concat sep l) m = true.
Proof.
  induction l as [| x l IH]; [intros [] |].
  intros [-> | H]; destruct l as [| y l]; cbn [String.concat].
  - rewrite <- (append_nil_r m) at 1. apply contains_here.
  - apply contains_here.
  - destruct H.
  - apply contains_skip, contains_skip, IH, H.
Qed.

(** C6: once the stream is open and authentication is allowed, [init]
    takes the first mechanism of the server's list that is ANONYMOUS, PLAIN
    or DIGEST-MD5: the next frame it writes is the [<auth>] frame of that
    mechanism, and no other [<auth>] frame follows.  When the list holds
    none of the three, [init] writes nothing more and fails with a message
    that lists every advertised mechanism. *)
Theorem mechanism_selection (o : Options) (fuel : nat) (w : World)
    (u d : string) (f0 f : streamFeatures) (w0 w1 : World) :
  len2 (Strings.SplitN (User o) "@" 2) = Some (u, d) ->
  startStream o d fuel w = (Ret f0, w0) ->
  startTlsIfRequired f0 o d fuel w0 = (Ret f, w1) ->
  tls w1 = true \/ InsecureAllowUnencryptedAuth o = true ->
  let advertised := mechanisms_Mechanism (features_Mechanisms f) in
  match first_supported advertised with
  | Some m =>
      exists fr rest,
        is_auth_frame_for m fr = true
        /\ out (snd (init o fuel w)) = (out w1 ++ fr :: rest)%list
        /\ Forall no_auth rest
  | None =>
      let msg := "PLAIN authentication is not an option: "
                 ++ Fmt.v_strings advertised in
      init o fuel w = (Err (errorString msg), w1)
      /\ forall m, In m advertised -> Bytes.contains msg m = true
  end.
Proof.
  intros L E0 E1 Hpol advertised.
  assert (Hcheck : negb (tls w1) && negb (InsecureAllowUnencryptedAuth o)
                   = false).
  { destruct Hpol as [-> | ->]; [reflexivity | apply andb_false_r]. }
  pose proof (init_mechanisms_first o u d advertised L fuel w1) as Hloop.
  unfold init. rewrite L, bind_eq, E0, bind_eq, E1, bind_eq.
  unfold IsEncrypted, gets. cbv beta iota. rewrite Hcheck, bind_eq.
  fold advertised.
  destruct (first_supported advertised) as [m |].
  - destruct Hloop as [fr [rest [Hfr [Hout [Hrest Hm]]]]].
    destruct (init_mechanisms o advertised fuel w1) as [r2 w2].
    simpl in Hout, Hm.
    destruct r2 as [m' | e | msg | e |];
      try (exists fr, rest; simpl; now repeat split).
    match goal with
    | |- context [snd (?k fuel w2)] =>
        assert (Kt : keeps no_auth k) by keeps_init_tail;
        destruct (Kt fuel w2) as [_ [l [El Fl]]]
    end.
    exists fr, (rest ++ l)%list. split; [assumption |]. split.
    + rewrite El, Hout, <- app_assoc. reflexivity.
    + apply Forall_app; auto.
  - rewrite Hloop. cbv beta iota. split; [reflexivity |].
    intros m Hin. apply contains_skip. unfold Fmt.v_strings.
    apply (contains_skip "["), contains_keep, contains_concat, Hin.
Qed.


Lemma mechanism_selection_witness :
  exists fr rest,
    is_auth_frame_for "DIGEST-MD5" fr = true
    /\ out (snd (init Scenario.options 8 Scenario.digest_server))
       = (out (snd (startStream Scenario.options "example.com" 8
                      Scenario.digest_server)) ++ fr :: rest)%list
    /\ Forall no_auth rest.
Proof.
  pose proof (fun f0 w0 f w1 =>
                mechanism_selection Scenario.options 8 Scenario.digest_server
                  "user" "example.com" f0 f w0 w1 eq_refl) as H.
  specialize (H _ _ _ _ eq_refl eq_refl (or_introl eq_refl)).
  exact H.
Defined.

(** ** Where the code leaves the specification *)

(** C2: the server offers STARTTLS without requiring it and the user did
    not set [StartTLS]; whatever the rest of the options, the domain and
    the state, [startTlsIfRequired] writes [<starttls/>] first.  A whole
    run of [init] against such a server ends on a TLS connection. *)
Theorem starttls_without_request :
  starttls_Required (mk_tlsStartTLS None) = None
  /\ StartTLS Scenario.options = false
  /\ (forall domain fuel w, exists rest,
        out (snd (startTlsIfRequired Scenario.starttls_offered
                    Scenario.options domain fuel w))
        = (out w ++ Scenario.starttls_frame :: rest)%list)
  /\ (let r := init Scenario.options 8 Scenario.starttls_optional_server in
      fst r = Ret tt /\ tls (snd r) = true
      /\ nth 1 (out (snd r)) "" = Scenario.starttls_frame).
Proof.
  split; [reflexivity |]. split; [reflexivity |]. split.
  - intros domain fuel w. cbn [startTlsIfRequired Scenario.starttls_offered
                                features_StartTLS starttls_Required].
    cbn [Scenario.options StartTLS negb].
    match goal with
    | |- context [bind (Fprintf ?s) (fun _ => ?k)] =>
        assert (Kt : keeps any_frame k) by keeps_init_tail;
        destruct (Fprintf_then any_frame s k Kt fuel w) as [rest [E _]]
    end.
    exists rest. exact E.
  - vm_compute. auto.
Qed.

(** C4: the server answers the bind request with an [<iq>] that holds no
    [<bind>], or a [<bind>] with no [<jid>]: [init] succeeds and the
    client's JID is empty. *)
Theorem bind_reply_without_jid :
  (let r := init Scenario.options 8
              (Scenario.world (Scenario.plain_session []) true) in
   fst r = Ret tt /\ jid (snd r) = "")
  /\ (let r := init Scenario.options 8
                 (Scenario.world
                    (Scenario.plain_session [Scenario.el nsBind "bind" []])
                    true) in
      fst r = Ret tt /\ jid (snd r) = "").
Proof. vm_compute. auto. Qed.

Lemma nextStart_at_EOF (fuel : nat) (w : World) :
  inp w = [] -> rd_err w = io_EOF -> nextStart_loop fuel w = (Spin, w).
Proof.
  intros I E. induction fuel as [| fuel IH]; [reflexivity |].
  cbn [nextStart_loop]. unfold Decoder_Token. rewrite I, E. exact IH.
Qed.

(** C5: the server closes the stream and the connection, so that every
    read reports [io.EOF]: whatever the fuel, [Recv] is still looping.
    With an error other than [io.EOF], [Recv] returns it. *)
Theorem Recv_loops_at_EOF :
  (forall fuel, fst (Recv fuel Scenario.closed_stream) = Spin)
  /\ fst (Recv 2 Scenario.reset_stream)
     = Err (errorString "connection reset by peer").
Proof.
  split; [| reflexivity].
  intros [| fuel]; [reflexivity |].
  unfold Recv. cbn [Recv_loop]. unfold next.
  rewrite bind_assoc, bind_eq. unfold nextStart.
  cbn [nextStart_loop]. unfold Decoder_Token. cbn [Scenario.closed_stream
    Scenario.world inp]. cbv beta iota.
  rewrite nextStart_at_EOF; reflexivity.
Qed.

(** C7: without a proxy [connect] dials the host it was given, as it was
    given: with no port when the caller gave none, and empty when the host
    was left out, although [host] has by then been completed to
    [domain:5222]. *)
Theorem connect_dials_raw_host :
  (forall host user passwd fuel,
      dialed (snd (connect host user passwd fuel (Scenario.world [] false)))
      = [host])
  /\ connect_host "example.com" "user@example.com" = "example.com:5222"
  /\ connect_host "" "user@example.com" = "example.com:5222"
  /\ dialed (snd (connect "example.com" "user@example.com" "pass" 8
                    (Scenario.world [] false)))
     = ["example.com"]
  /\ dialed (snd (connect "" "user@example.com" "pass" 8
                    (Scenario.world [] false)))
     = [""].
Proof.
  split; [| vm_compute; auto].
  intros host user passwd fuel. reflexivity.
Qed.

(** C8: the show and status of the options go into the first presence as
    they are, markup characters included, while [ChangeStatus] escapes the
    same two strings. *)
Theorem initial_presence_not_escaped :
  let o := Scenario.with_status "<dnd/>" "R&D" in
  let w := Scenario.world
             (Scenario.plain_session (Scenario.bound_as "user@example.com/bot"))
             true in
  fst (init o 8 w) = Ret tt
  /\ last (out (snd (init o 8 w))) ""
     = "<presence xml:lang='en'><show><dnd/></show><status>R&D</status></presence>"
  /\ out (snd (ChangeStatus "<dnd/>" "R&D" 8 w))
     = ["<presence xml:lang='en'><show>&lt;dnd/&gt;</show><status>R&amp;D</status></presence>"].
Proof. vm_compute. auto. Qed.

(** C9: on a [<challenge>] element of the SASL name space, whatever its
    text, [next] returns the error of a value that is no pointer, while
    [DecodeElement] on a pointer to a [saslChallenge], as [init] calls it,
    returns the text. *)
Theorem next_refuses_challenge :
  forall fuel text,
    fst (next (S fuel) (Scenario.world (Scenario.challenge text) true))
    = Err (errorString "non-pointer passed to Unmarshal")
    /\ fst (decodeInto t_saslChallenge None fuel
              (Scenario.world (Scenario.challenge text) true))
       = Ret text.
Proof.
  intros fuel text. split; [reflexivity |].
  rewrite <- (append_nil_r text) at 2. reflexivity.
Qed.

(* ------------------------------------------------------------------ *)
(** * Further properties of the code *)

Import Reads.

(** ** The readers: nextStart, next, Recv *)

Lemma set_inp_inp (w : World) : set_inp (inp w) w = w.
Proof. destruct w; reflexivity. Qed.

Lemma set_inp_twice (a b : list Token) (w : World) :
  set_inp a (set_inp b w) = set_inp a w.
Proof. reflexivity. Qed.

Lemma reads_only_refl (w : World) : reads_only w w.
Proof. split; [now rewrite set_inp_inp | now exists []]. Qed.

Lemma reads_only_trans (a b c : World) :
  reads_only a b -> reads_only b c -> reads_only a c.
Proof.
  intros [E1 [t1 I1]] [E2 [t2 I2]]. split.
  - rewrite E2, E1. reflexivity.
  - exists (t1 ++ t2)%list. now rewrite I1, I2, app_assoc.
Qed.

(** Taking the input down to a suffix of itself. *)
Lemma reads_only_suffix (w : World) (taken rest : list Token) :
  inp w = (taken ++ rest)%list -> reads_only w (set_inp rest w).
Proof. intros E. split; [reflexivity | now exists taken]. Qed.

Lemma scan_start_suffix (toks : list Token) se rest :
  scan_start toks = Some (se, rest) ->
  exists skipped,
    toks = (skipped ++ TStart se :: rest)%list
    /\ Forall (fun t => forall s, t <> TStart s) skipped.
Proof.
  induction toks as [| t toks IH]; [discriminate |].
  destruct t; simpl;
    try (intros H; destruct (IH H) as [sk [-> F]];
         eexists (_ :: sk); split; [reflexivity |];
         constructor; [discriminate | assumption]).
  intros [= <- <-]. exists []. split; [reflexivity | constructor].
Qed.

Lemma read_body_suffix (toks : list Token) :
  forall cur stack kids rest,
    read_body toks cur stack = Some (kids, rest) ->
    exists taken, toks = (taken ++ rest)%list /\ taken <> [].
Proof.
  induction toks as [| t toks IH]; intros cur stack kids rest; [discriminate |].
  assert (Step : forall cur' stack',
             read_body toks cur' stack' = Some (kids, rest) ->
             exists taken, (t :: toks = taken ++ rest)%list /\ taken <> []).
  { intros cur' stack' H. destruct (IH _ _ _ _ H) as [tk [-> _]].
    exists (t :: tk). split; [reflexivity | discriminate]. }
  destruct t; simpl; try apply Step.
  destruct stack as [| [se outer] st]; [| apply Step].
  intros [= <- <-]. exists [TEnd n]. split; [reflexivity | discriminate].
Qed.

(** The three ways [nextStart] can go, by what the input holds. *)
Lemma nextStart_skips (fuel : nat) (skipped : list Token) :
  Forall (fun t => forall s, t <> TStart s) skipped ->
  forall w rest,
    inp w = (skipped ++ rest)%list ->
    nextStart_loop (List.length skipped + fuel) w
    = nextStart_loop fuel (set_inp rest w).
Proof.
  induction 1 as [| t sk Ht F IH]; intros w rest E.
  - simpl in *. subst rest. now rewrite set_inp_inp.
  - cbn [List.length Nat.add nextStart_loop]. unfold Decoder_Token.
    rewrite E. cbn [app]. cbv iota.
    rewrite (IH (set_inp (sk ++ rest) w) rest eq_refl).
    destruct t; try reflexivity. now destruct (Ht se).
Qed.

Lemma scan_start_none (toks : list Token) :
  scan_start toks = None -> Forall (fun t => forall s, t <> TStart s) toks.
Proof.
  induction toks as [| t toks IH]; [constructor |].
  destruct t; simpl; try discriminate;
    intros H; constructor; try discriminate; auto.
Qed.

Lemma nextStart_found (fuel : nat) (w : World)
    (se : StartElement) (rest : list Token) :
  scan_start (inp w) = Some (se, rest) ->
  List.length (inp w) <= fuel ->
  nextStart fuel w = (Ret se, set_inp rest w).
Proof.
  intros Hs L. destruct (scan_start_suffix _ _ _ Hs) as [sk [E F]].
  rewrite E, length_app in L. cbn [List.length] in L.
  replace fuel with (List.length sk + S (fuel - List.length sk - 1)) by lia.
  unfold nextStart. rewrite (nextStart_skips _ sk F w _ E).
  reflexivity.
Qed.

(** X1: [nextStart] returns the first start element of the input and leaves
    the decoder right after it, whatever comes before it (text, comments,
    processing instructions, end elements) and however the input ends. *)
Theorem nextStart_finds_first_start (fuel : nat) (w : World)
    (se : StartElement) (rest : list Token) :
  scan_start (inp w) = Some (se, rest) ->
  List.length (inp w) <= fuel ->
  nextStart fuel w = (Ret se, set_inp rest w).
Proof. apply nextStart_found. Qed.

Lemma nextStart_finds_first_start_witness :
  nextStart 4
    (Scenario.world
       [TProcInst "xml" ""; TCharData " "; Scenario.open_stream;
        TCharData "x"] true)
  = (Ret (mkStart (mkName nsStream "stream") []),
     Scenario.world [TCharData "x"] true).
Proof.
  apply (nextStart_finds_first_start 4
           (Scenario.world
              [TProcInst "xml" ""; TCharData " "; Scenario.open_stream;
               TCharData "x"] true)); [reflexivity | simpl; lia].
Defined.

Lemma nextStart_failed (fuel : nat) (w : World) (msg : string) :
  scan_start (inp w) = None ->
  rd_err w = errorString msg ->
  List.length (inp w) < fuel ->
  nextStart fuel w = (Err (errorString msg), set_inp [] w).
Proof.
  intros Hs E L. apply scan_start_none in Hs.
  replace fuel with (List.length (inp w) + S (fuel - List.length (inp w) - 1))
    by lia.
  unfold nextStart.
  rewrite (nextStart_skips _ (inp w) Hs w [] (eq_sym (app_nil_r _))).
  cbn [nextStart_loop]. unfold Decoder_Token. cbn [inp set_inp rd_err].
  rewrite E. reflexivity.
Qed.

(** X2: when the input holds no further start element and reading ends in an
    error other than [io.EOF], [nextStart] returns that error, after
    having consumed the input. *)
Theorem nextStart_reports_error (fuel : nat) (w : World) (msg : string) :
  scan_start (inp w) = None ->
  rd_err w = errorString msg ->
  List.length (inp w) < fuel ->
  nextStart fuel w = (Err (errorString msg), set_inp [] w).
Proof. apply nextStart_failed. Qed.

Lemma nextStart_reports_error_witness :
  nextStart 2 Scenario.reset_stream
  = (Err (errorString "connection reset by peer"),
     set_inp [] Scenario.reset_stream).
Proof.
  apply (nextStart_reports_error 2 Scenario.reset_stream);
    [reflexivity | reflexivity | simpl; lia].
Defined.

(** X3: when the input holds no further start element and reading ends in
    [io.EOF], [nextStart] is still looping whatever the fuel: it does not
    return. *)
Theorem nextStart_spins_at_EOF (w : World) :
  scan_start (inp w) = None ->
  rd_err w = io_EOF ->
  forall fuel, fst (nextStart fuel w) = Spin.
Proof.
  intros Hs E. unfold nextStart.
  remember (inp w) as toks eqn:I. revert w I E.
  induction toks as [| t toks IH]; intros w I E fuel.
  - now rewrite nextStart_at_EOF.
  - destruct fuel as [| fuel]; [reflexivity |].
    cbn [nextStart_loop]. unfold Decoder_Token. rewrite <- I. cbv iota.
    assert (Hs' : scan_start toks = None)
      by (destruct t; simpl in Hs; congruence).
    specialize (IH Hs' (set_inp toks w) eq_refl E fuel).
    destruct t; try exact IH. discriminate Hs.
Qed.

Lemma nextStart_spins_at_EOF_witness :
  fst (nextStart 1000 Scenario.closed_stream) = Spin.
Proof.
  apply (nextStart_spins_at_EOF Scenario.closed_stream); reflexivity.
Defined.

Lemma reads_only_decodeInto (ty : gotype) (start : option StartElement)
    (fuel : nat) (w : World) :
  reads_only w (snd (decodeInto ty start fuel w)).
Proof.
  unfold decodeInto.
  assert (All : reads_only w (set_inp [] w)).
  { apply (reads_only_suffix w (inp w) []). now rewrite app_nil_r. }
  assert (Found : forall se toks,
             match start with
             | Some se => Some (se, inp w)
             | None => scan_start (inp w)
             end = Some (se, toks) ->
             exists taken, inp w = (taken ++ toks)%list).
  { intros se toks. destruct start as [s |].
    - intros [= <- <-]. now exists [].
    - intros H. destruct (scan_start_suffix _ _ _ H) as [sk [-> _]].
      exists (sk ++ [TStart se])%list. now rewrite <- app_assoc. }
  destruct (match start with
            | Some se => Some (se, inp w)
            | None => scan_start (inp w)
            end) as [[se toks] |]; [| exact All].
  destruct (Found se toks eq_refl) as [tk Etk].
  destruct (check_name ty se); [now apply (reads_only_suffix w tk) |].
  destruct (read_body toks [] []) as [[kids rest] |] eqn:R; [| exact All].
  destruct (read_body_suffix _ _ _ _ _ R) as [tk' [-> _]].
  assert (reads_only w (set_inp rest w)).
  { apply (reads_only_suffix w (tk ++ tk')). now rewrite Etk, app_assoc. }
  destruct (unmarshal ty se kids); assumption.
Qed.

Lemma reads_only_nextStart (fuel : nat) (w : World) :
  reads_only w (snd (nextStart fuel w)).
Proof.
  unfold nextStart. revert w.
  induction fuel as [| fuel IH]; intros w; [apply reads_only_refl |].
  cbn [nextStart_loop]. unfold Decoder_Token.
  destruct (inp w) as [| t r] eqn:E.
  - destruct (rd_err w); cbn; [apply IH | apply reads_only_refl].
  - assert (St : reads_only w (set_inp r w))
      by (apply (reads_only_suffix w [t]); now rewrite E).
    destruct t; cbn; try (eapply reads_only_trans; [exact St | apply IH]).
    exact St.
Qed.

Lemma reads_only_bind {A B} (m : M A) (k : A -> M B) (fuel : nat) (w : World) :
  reads_only w (snd (m fuel w)) ->
  (forall a w1, reads_only w1 (snd (k a fuel w1))) ->
  reads_only w (snd (bind m k fuel w)).
Proof.
  intros Hm Hk. rewrite bind_eq.
  destruct (m fuel w) as [[a | e | msg | e |] w1]; simpl in *; try assumption.
  eapply reads_only_trans; [eassumption | apply Hk].
Qed.

Lemma reads_only_next (fuel : nat) (w : World) :
  reads_only w (snd (next fuel w)).
Proof.
  unfold next. apply reads_only_bind; [apply reads_only_nextStart |].
  intros se w1.
  assert (D : forall nv w2,
             reads_only w2
               (snd ((nv' <- DecodeElement nv (Some se) ;; ret (SName se, nv'))
                       fuel w2))).
  { intros nv w2. apply reads_only_bind.
    - destruct nv; simpl; [| apply reads_only_refl].
      apply reads_only_bind; [apply reads_only_decodeInto |].
      intros; apply reads_only_refl.
    - intros; apply reads_only_refl. }
  repeat match goal with
         | |- reads_only _ (snd ((if ?b then _ else _) _ _)) => destruct b
         end;
    first [apply D | apply reads_only_refl].
Qed.

(** X4: [nextStart], [next] and [Recv] only take tokens off the input: what
    is left is a suffix of what was there, and nothing is written to the
    connection nor changed in the client, whatever the outcome. *)
Theorem readers_only_read (fuel : nat) (w : World) :
  reads_only w (snd (nextStart fuel w))
  /\ reads_only w (snd (next fuel w))
  /\ reads_only w (snd (Recv fuel w))
  /\ (forall w', reads_only w w' ->
        out w' = out w /\ tls w' = tls w /\ jid w' = jid w
        /\ closed w' = closed w).
Proof.
  split; [apply reads_only_nextStart |]. split; [apply reads_only_next |].
  split; [| intros w' [-> _]; auto].
  unfold Recv. generalize fuel at 1 as n. intros n. revert w.
  induction n as [| n IH]; intros w; [apply reads_only_refl |].
  cbn [Recv_loop]. apply reads_only_bind; [apply reads_only_next |].
  intros [name v] w1. cbn [snd].
  destruct v as [ty x | s]; [| apply IH].
  destruct ty; first [apply IH | apply reads_only_refl].
Qed.

Lemma decode_returns (nv : iface) (start : option StartElement)
    (fuel : nat) (w : World) :
  (exists v, fst (DecodeElement nv start fuel w) = Ret v)
  \/ (exists e, fst (DecodeElement nv start fuel w) = Err e).
Proof.
  destruct nv as [ty x | s]; [| right; eexists; reflexivity].
  cbn [DecodeElement]. rewrite bind_eq. unfold decodeInto.
  destruct (match start with
            | Some se => Some (se, inp w)
            | None => scan_start (inp w)
            end) as [[se toks] |]; [| right; eexists; reflexivity].
  destruct (check_name ty se); [right; eexists; reflexivity |].
  destruct (read_body toks [] []) as [[kids rest] |];
    [| right; eexists; reflexivity].
  destruct (unmarshal ty se kids);
    [right | left]; eexists; reflexivity.
Qed.

(** With enough fuel and a read error other than [io.EOF] at the end of
    the input, [next] returns, and when it returns an element it has taken
    at least one token. *)
Lemma next_progress (fuel : nat) (w : World) (msg : string) :
  rd_err w = errorString msg ->
  List.length (inp w) < fuel ->
  (exists r, fst (next fuel w) = Ret r
             /\ List.length (inp (snd (next fuel w))) < List.length (inp w))
  \/ (exists e, fst (next fuel w) = Err e).
Proof.
  intros E L. unfold next. rewrite bind_eq.
  destruct (scan_start (inp w)) as [[se rest] |] eqn:Hs.
  2:{ rewrite (nextStart_failed fuel w msg Hs E L).
      right; eexists; reflexivity. }
  rewrite (nextStart_found fuel w se rest Hs) by lia.
  destruct (scan_start_suffix _ _ _ Hs) as [sk [Esk _]].
  assert (Lr : List.length rest < List.length (inp w)).
  { rewrite Esk, length_app. simpl. lia. }
  assert (D : forall nv,
             (exists r,
                 fst ((nv' <- DecodeElement nv (Some se) ;; ret (SName se, nv'))
                        fuel (set_inp rest w)) = Ret r
                 /\ List.length
                      (inp (snd ((nv' <- DecodeElement nv (Some se) ;;
                                  ret (SName se, nv')) fuel (set_inp rest w))))
                    < List.length (inp w))
             \/ (exists e,
                    fst ((nv' <- DecodeElement nv (Some se) ;;
                          ret (SName se, nv')) fuel (set_inp rest w))
                    = Err e)).
  { intros nv. rewrite bind_eq.
    assert (R : reads_only (set_inp rest w)
                  (snd (DecodeElement nv (Some se) fuel (set_inp rest w)))).
    { destruct nv; simpl; [| apply reads_only_refl].
      apply reads_only_bind; [apply reads_only_decodeInto |].
      intros; apply reads_only_refl. }
    destruct (decode_returns nv (Some se) fuel (set_inp rest w))
      as [[v Hv] | [e He]];
      destruct (DecodeElement nv (Some se) fuel (set_inp rest w)) as [r w2];
      simpl in *; subst r.
    - left. eexists. split; [reflexivity |]. simpl.
      destruct R as [_ [tk Etk]]. simpl in Etk.
      rewrite Etk, length_app in Lr. lia.
    - right. eexists. reflexivity. }
  cbv zeta.
  repeat match goal with
         | |- context [if ?b then _ else _] => destruct b
         end;
    first [apply D | right; eexists; reflexivity].
Qed.

(** X5: when reading the connection ends in an error other than [io.EOF],
    [Recv] returns, with a stanza or with an error; it does not loop. *)
Theorem Recv_returns_on_error (fuel : nat) (w : World) (msg : string) :
  rd_err w = errorString msg ->
  List.length (inp w) < fuel ->
  (exists ev, fst (Recv fuel w) = Ret ev)
  \/ (exists e, fst (Recv fuel w) = Err e).
Proof.
  intros E L. unfold Recv.
  assert (G : forall n w,
             rd_err w = errorString msg ->
             List.length (inp w) < fuel ->
             List.length (inp w) < n ->
             (exists ev, fst (Recv_loop n fuel w) = Ret ev)
             \/ (exists e, fst (Recv_loop n fuel w) = Err e)).
  { clear w E L. induction n as [| n IH]; intros w E L Ln; [lia |].
    cbn [Recv_loop]. rewrite bind_eq.
    pose proof (reads_only_next fuel w) as [Ew _].
    destruct (next_progress fuel w msg E L) as [[r [Hr Lr]] | [e He]];
      destruct (next fuel w) as [r' w1]; simpl in *; subst r'.
    2:{ right; eexists; reflexivity. }
    assert (E1 : rd_err w1 = errorString msg) by (rewrite Ew; exact E).
    destruct r as [name v]. cbn [snd].
    destruct v as [ty x | s]; [| apply IH; [assumption | lia | lia]].
    destruct ty;
      first [ apply IH; [assumption | lia | lia]
            | left; eexists; reflexivity ]. }
  apply G; assumption.
Qed.

Lemma Recv_returns_on_error_witness :
  (exists ev, fst (Recv 2 Scenario.reset_stream) = Ret ev)
  \/ (exists e, fst (Recv 2 Scenario.reset_stream) = Err e).
Proof.
  apply (Recv_returns_on_error 2 Scenario.reset_stream
           "connection reset by peer"); [reflexivity | simpl; lia].
Defined.

Lemma check_name_passes (ty : gotype) (se : StartElement) :
  check_name ty se = None ->
  forall ns local, xmlname ty = Some (ns, local) ->
                   ns = Space (SName se) /\ local = Local (SName se).
Proof.
  unfold check_name. intros H ns local E. rewrite E in H.
  destruct (String.eqb_spec local (Local (SName se))); [| discriminate].
  destruct (String.eqb_spec ns (Space (SName se))); [| discriminate].
  auto.
Qed.

Lemma decodeInto_checked (ty : gotype) (se : StartElement) (fuel : nat)
    (w : World) (x : denote ty) :
  fst (decodeInto ty (Some se) fuel w) = Ret x -> check_name ty se = None.
Proof.
  unfold decodeInto. destruct (check_name ty se); [discriminate | reflexivity].
Qed.

(** X6: whatever [next] returns with success is a pointer to a struct whose
    [XMLName] tag is the name of the element read, which is also the name
    returned: the table of [next] and the tags of the structs agree, and a
    plain string is never handed back. *)
Theorem next_returns_typed (fuel : nat) (w w' : World) (name : Name)
    (v : iface) :
  next fuel w = (Ret (name, v), w') ->
  exists ty x,
    v = ptr ty x /\ xmlname ty = Some (Space name, Local name).
Proof.
  unfold next. rewrite bind_eq.
  destruct (nextStart fuel w) as [[se | e | msg | e |] w1]; try discriminate.
  assert (D : forall ty z ns local,
             xmlname ty = Some (ns, local) ->
             (nv' <- DecodeElement (ptr ty z) (Some se) ;; ret (SName se, nv'))
               fuel w1 = (Ret (name, v), w') ->
             exists ty x,
               v = ptr ty x /\ xmlname ty = Some (Space name, Local name)).
  { intros ty z ns local X. rewrite bind_eq. cbn [DecodeElement].
    rewrite bind_eq.
    destruct (decodeInto ty (Some se) fuel w1) as [r w2] eqn:Ed.
    destruct r as [x | e | msg | e |]; try discriminate.
    intros [= <- <- _]. exists ty, x. split; [reflexivity |].
    assert (C : check_name ty se = None).
    { apply (decodeInto_checked ty se fuel w1 x). now rewrite Ed. }
    destruct (check_name_passes ty se C ns local X) as [<- <-]. exact X. }
  cbv zeta.
  repeat match goal with
         | |- context [if ?b then _ else _] => destruct b
         end;
    try discriminate;
    try (eapply D; reflexivity).
Qed.

Lemma next_returns_typed_witness :
  exists ty x,
    ptr t_saslSuccess tt = ptr ty x
    /\ xmlname ty = Some (nsSASL, "success").
Proof.
  apply (next_returns_typed 2
           (Scenario.world (tokens (Scenario.el nsSASL "success" [])) true)
           (Scenario.world [] true) (mkName nsSASL "success")
           (ptr t_saslSuccess tt)).
  reflexivity.
Defined.

Lemma has_space_split (a b x y : string) :
  has_space x = false -> has_space y = false ->
  a ++ " " ++ b = x ++ String " " y -> a = x /\ b = y.
Proof.
  unfold has_space. revert x.
  induction a as [| c a IH]; intros [| d x] Hx Hy; simpl in *.
  - intros [= ->]. auto.
  - intros [= <- _]. discriminate Hx.
  - intros [= -> <-]. rewrite to_list_app in Hy. simpl in Hy.
    rewrite existsb_app in Hy. simpl in Hy.
    now rewrite orb_true_r in Hy.
  - intros [= -> E]. apply orb_false_elim in Hx as [_ Hx].
    destruct (IH x Hx Hy E) as [-> ->]. auto.
Qed.

Lemma key_differs (a b x y : string) :
  (x, y) <> (a, b) ->
  has_space x = false -> has_space y = false ->
  String.eqb (a ++ " " ++ b) (x ++ String " " y) = false.
Proof.
  intros N Hx Hy. destruct (String.eqb_spec (a ++ " " ++ b) (x ++ String " " y))
    as [E |]; [| reflexivity].
  destruct (has_space_split a b x y Hx Hy E) as [-> ->]. now destruct N.
Qed.

Lemma next_unknown (fuel : nat) (w : World) (se : StartElement)
    (rest : list Token) :
  inp w = TStart se :: rest ->
  ~ In (Space (SName se), Local (SName se)) next_names ->
  next (S fuel) w
  = (Err (errorString ("unexpected XMPP message " ++ Space (SName se) ++ " <"
                       ++ Local (SName se) ++ "/>")),
     set_inp rest w).
Proof.
  intros I N. unfold next. rewrite bind_eq. unfold nextStart.
  cbn [nextStart_loop]. unfold Decoder_Token. rewrite I. cbv beta iota zeta.
  cbn [next_names In] in N.
  repeat rewrite key_differs by (try reflexivity; intros E; apply N; tauto).
  reflexivity.
Qed.

(** X7: an element whose name is not in the table of [next] makes [next]
    fail with "unexpected XMPP message", its start tag consumed and the
    rest of the input left; [Recv] does not skip such an element, it
    returns the same error. *)
Theorem unknown_element_is_an_error (fuel : nat) (w : World)
    (se : StartElement) (rest : list Token) :
  inp w = TStart se :: rest ->
  ~ In (Space (SName se), Local (SName se)) next_names ->
  let e := errorString ("unexpected XMPP message " ++ Space (SName se)
                        ++ " <" ++ Local (SName se) ++ "/>") in
  next (S fuel) w = (Err e, set_inp rest w)
  /\ Recv (S fuel) w = (Err e, set_inp rest w).
Proof.
  intros I N e. split; [now apply next_unknown |].
  unfold Recv. cbn [Recv_loop]. rewrite bind_eq.
  now rewrite (next_unknown fuel w se rest I N).
Qed.

Lemma unknown_element_is_an_error_witness :
  Recv 1 (Scenario.world (tokens (Scenario.el "urn:xmpp:sm:3" "r" [])) true)
  = (Err (errorString "unexpected XMPP message urn:xmpp:sm:3 <r/>"),
     Scenario.world [TEnd (mkName "urn:xmpp:sm:3" "r")] true).
Proof.
  refine (proj2 (unknown_element_is_an_error 0
                   (Scenario.world (tokens (Scenario.el "urn:xmpp:sm:3" "r" []))
                      true)
                   (mkStart (mkName "urn:xmpp:sm:3" "r") [])
                   [TEnd (mkName "urn:xmpp:sm:3" "r")] eq_refl _)).
  simpl. intros H. repeat (destruct H as [H | H]; [discriminate H |]).
  exact H.
Defined.

(** ** Opening streams and TLS *)

Lemma bind_Ret_inv {A B} (m : M A) (k : A -> M B) (fuel : nat)
    (w w' : World) (b : B) :
  bind m k fuel w = (Ret b, w') ->
  exists a w1, m fuel w = (Ret a, w1) /\ k a fuel w1 = (Ret b, w').
Proof.
  rewrite bind_eq. destruct (m fuel w) as [[a | e | msg | e |] w1];
    try discriminate.
  intros H. now exists a, w1.
Qed.

Lemma reads_only_wrap_err {A} (what : string) (m : M A) (fuel : nat)
    (w : World) :
  reads_only w (snd (m fuel w)) ->
  reads_only w (snd (wrap_err what m fuel w)).
Proof.
  unfold wrap_err. destruct (m fuel w) as [[a | e | msg | e |] w1]; auto.
Qed.

Lemma reads_only_out (w w' : World) : reads_only w w' -> out w' = out w.
Proof. now intros [-> _]. Qed.

(** The world right after a write of [s]. *)
Lemma startStream_reads (o : Options) (domain : string) (fuel : nat)
    (w : World) :
  reads_only (snd (Fprintf (stream_header domain) fuel w))
    (snd (startStream o domain fuel w)).
Proof.
  unfold startStream. fold (stream_header domain). rewrite bind_eq.
  destruct (Fprintf (stream_header domain) fuel w) as [r w1] eqn:EF.
  assert (Hr : exists err, r = Ret err).
  { unfold Fprintf in EF. destruct (wr_errs w); injection EF as <- _; eauto. }
  destruct Hr as [err ->]. cbn [snd].
  destruct err as [e |]; [apply reads_only_refl |].
  apply reads_only_bind; [apply reads_only_nextStart |].
  intros se w2.
  destruct (negb (String.eqb (Space (SName se)) nsStream)
            || negb (String.eqb (Local (SName se)) "stream"));
    [apply reads_only_refl |].
  apply reads_only_wrap_err.
  apply (reads_only_decodeInto t_streamFeatures None).
Qed.

(** X8: whatever the server answers and however it ends, [startStream] writes
    one frame and only one: the stream header, whose [to] attribute is the
    escaped domain; it does not touch the kind of the connection nor the
    JID. *)
Theorem startStream_writes_header_once (o : Options) (domain : string)
    (fuel : nat) (w : World) :
  out (snd (startStream o domain fuel w))
  = (out w ++ [stream_header domain])%list
  /\ tls (snd (startStream o domain fuel w)) = tls w
  /\ jid (snd (startStream o domain fuel w)) = jid w.
Proof.
  destruct (startStream_reads o domain fuel w) as [-> _].
  unfold Fprintf. destruct (wr_errs w); repeat split.
Qed.

(** X9: when the first element the server sends is not [stream] in the
    streams name space, [startStream] fails and names what it got. *)
Theorem startStream_wrong_root (o : Options) (domain : string) (fuel : nat)
    (w : World) (se : StartElement) (rest : list Token) :
  wr_errs w = [] ->
  scan_start (inp w) = Some (se, rest) ->
  List.length (inp w) <= fuel ->
  (Space (SName se), Local (SName se)) <> (nsStream, "stream") ->
  fst (startStream o domain fuel w)
  = Err (errorString ("expected <stream> but got <" ++ Local (SName se)
                      ++ "> in " ++ Space (SName se))).
Proof.
  intros W Hs L N. unfold startStream. rewrite bind_eq. unfold Fprintf.
  rewrite W. cbv iota. rewrite bind_eq.
  rewrite (nextStart_found fuel _ se rest) by assumption.
  destruct (String.eqb_spec (Space (SName se)) nsStream) as [E1 |];
    [| reflexivity].
  destruct (String.eqb_spec (Local (SName se)) "stream") as [E2 |];
    [| reflexivity].
  destruct N. now rewrite E1, E2.
Qed.

Lemma startStream_wrong_root_witness :
  fst (startStream Scenario.options "example.com" 9
         (Scenario.world (Scenario.features []) false))
  = Err (errorString
           "expected <stream> but got <features> in http://etherx.jabber.org/streams").
Proof.
  apply (startStream_wrong_root Scenario.options "example.com" 9
           (Scenario.world (Scenario.features []) false)
           (mkStart (mkName nsStream "features") [])
           [TEnd (mkName nsStream "features")]);
    [reflexivity | reflexivity | simpl; lia | discriminate].
Defined.

(** X10: when the server advertises STARTTLS and [startTlsIfRequired] returns
    with success, the connection is a TLS connection. *)
Theorem startTls_success_is_encrypted (f f' : streamFeatures) (o : Options)
    (domain : string) (fuel : nat) (w w' : World) :
  features_StartTLS f <> None ->
  startTlsIfRequired f o domain fuel w = (Ret f', w') ->
  tls w' = true.
Proof.
  intros Adv. unfold startTlsIfRequired.
  destruct (features_StartTLS f) as [st |]; [clear Adv | now destruct Adv].
  assert (P : forall m : M streamFeatures,
             (Fprintf ("<starttls xmlns='urn:ietf:params:xml:ns:xmpp-tls'/>"
                       ++ nl) ;;;
              wrap_err "unmarshal <proceed>: " (decodeInto t_tlsProceed None) ;;;
              herr <- Handshake ;;
              match herr with
              | Some e => errors_New ("starttls handshake: " ++ Error e)
              | None => modify (set_tls true) ;;; startStream o domain
              end) fuel w = (Ret f', w') -> tls w' = true).
  { intros _ H.
    apply bind_Ret_inv in H as [_ [w1 [_ H]]].
    apply bind_Ret_inv in H as [_ [w2 [_ H]]].
    apply bind_Ret_inv in H as [herr [w3 [_ H]]].
    destruct herr as [e |]; [discriminate |].
    apply bind_Ret_inv in H as [u4 [w4 [E4 H]]].
    injection E4 as _ <-.
    destruct (keeps_startStream any_frame o domain (or_introl eq_refl) fuel
                (set_tls true w3)) as [T _].
    rewrite H in T. now apply T. }
  destruct (starttls_Required st); [apply (P (ret f)) |].
  destruct (negb (StartTLS o)); apply (P (ret f)).
Qed.

Lemma startTls_success_is_encrypted_witness :
  tls (snd (startTlsIfRequired Scenario.starttls_offered Scenario.options
              "example.com" 9
              (Scenario.world
                 (tokens (Scenario.el nsTLS "proceed" [])
                  ++ Scenario.open_stream :: Scenario.features [])
                 false)))
  = true.
Proof.
  eapply (startTls_success_is_encrypted Scenario.starttls_offered _
            Scenario.options "example.com" 9
            (Scenario.world
               (tokens (Scenario.el nsTLS "proceed" [])
                ++ Scenario.open_stream :: Scenario.features [])
               false));
    [discriminate | apply returned; vm_compute; reflexivity].
Defined.

(** X11: a [NewClient] that is not told [NoTLS] and succeeds leaves the client
    on a TLS connection. *)
Theorem NewClient_is_encrypted (o : Options) (fuel : nat) (w w' : World)
    (r : unit) :
  NoTLS o = false ->
  NewClient o fuel w = (Ret r, w') ->
  tls w' = true.
Proof.
  intros N. unfold NewClient. rewrite N. intros H.
  apply bind_Ret_inv in H as [_ [w1 [_ H]]].
  apply bind_Ret_inv in H as [u2 [w2 [H2 H]]].
  assert (T2 : tls w2 = true).
  { apply bind_Ret_inv in H2 as [herr [w3 [_ H2]]].
    destruct herr as [e |]; [discriminate |].
    apply bind_Ret_inv in H2 as [verr [w4 [_ H2]]].
    destruct verr as [e |]; [discriminate |].
    now injection H2 as _ <-. }
  unfold close_on_error in H.
  destruct (keeps_init o fuel w2) as [T _]. specialize (T T2).
  destruct (init o fuel w2) as [[[] | e | msg | e |] w3]; try discriminate.
  injection H as _ <-. exact T.
Qed.

Lemma NewClient_is_encrypted_witness :
  tls (snd (NewClient Scenario.options 9
              (Scenario.world
                 (Scenario.plain_session
                    (Scenario.bound_as "user@example.com/bot"))
                 false)))
  = true.
Proof.
  eapply (NewClient_is_encrypted Scenario.options 9
            (Scenario.world
               (Scenario.plain_session
                  (Scenario.bound_as "user@example.com/bot"))
               false) _ tt);
    [reflexivity | apply returned; vm_compute; reflexivity].
Defined.

(** ** Escaping and the frames of Send *)

Lemma xmlEscape_inj (a b : string) : xmlEscape a = xmlEscape b -> a = b.
Proof.
  intros E.
  rewrite <- (unescape_escape a (String.length (xmlEscape a)) (le_n _)).
  rewrite <- (unescape_escape b (String.length (xmlEscape b)) (le_n _)).
  now rewrite E.
Qed.

Lemma length_append (a b : string) :
  String.length (a ++ b) = String.length a + String.length b.
Proof. induction a; simpl; congruence. Qed.

Lemma xmlEscape_length (s : string) :
  String.length s <= String.length (xmlEscape s)
  /\ (existsb is_special (Bytes.to_list s) = true ->
      String.length s < String.length (xmlEscape s)).
Proof.
  induction s as [| c s [IH1 IH2]]; simpl; [split; [lia | discriminate] |].
  destruct (xmlSpecial_spec c)
    as [[-> E] | [[-> E] | [[-> E] | [[-> E] | [[-> E] | [E N]]]]]];
    rewrite E; try (simpl; split; intros; lia).
  rewrite N. simpl. split; [lia |]. intros H. apply IH2 in H. lia.
Qed.

(** X12: [xmlEscape] changes a string exactly when it holds one of the five
    special characters; two different strings never escape to the same
    text. *)
Theorem xmlEscape_fixes_plain_text (s t : string) :
  (xmlEscape s = s <-> existsb is_special (Bytes.to_list s) = false)
  /\ (xmlEscape s = xmlEscape t -> s = t).
Proof.
  split; [| apply xmlEscape_inj]. split.
  - intros E. destruct (existsb is_special (Bytes.to_list s)) eqn:X;
      [| reflexivity].
    apply (proj2 (xmlEscape_length s)) in X. rewrite E in X. lia.
  - induction s as [| c s IH]; simpl; [reflexivity |].
    intros H. apply orb_false_elim in H as [N H].
    destruct (xmlSpecial_spec c)
      as [[-> E] | [[-> E] | [[-> E] | [[-> E] | [[-> E] | [E _]]]]]];
      try discriminate N.
    rewrite E. f_equal. now apply IH.
Qed.

Lemma split_at_char (c : ascii) (a : string) :
  forall a' b b',
    ~ In c (Bytes.to_list a) -> ~ In c (Bytes.to_list a') ->
    a ++ String c b = a' ++ String c b' -> a = a' /\ b = b'.
Proof.
  induction a as [| x a IH]; intros [| y a'] b b' Na Na'; simpl in *.
  - intros [= ->]. auto.
  - intros [= <- _]. tauto.
  - intros [= -> _]. tauto.
  - intros [= -> E].
    destruct (IH a' b b') as [-> ->]; auto.
Qed.

Lemma xmlEscape_no_apos (s : string) :
  ~ In "'"%char (Bytes.to_list (xmlEscape s)).
Proof. intros H. apply xmlEscape_no_markup in H. tauto. Qed.

Lemma xmlEscape_no_lt (s : string) :
  ~ In "<"%char (Bytes.to_list (xmlEscape s)).
Proof. intros H. apply xmlEscape_no_markup in H. tauto. Qed.

Lemma message_frame_inj (c1 c2 : Chat) :
  message_frame c1 = message_frame c2 ->
  Remote c1 = Remote c2 /\ Type_ c1 = Type_ c2 /\ Text_ c1 = Text_ c2.
Proof.
  unfold message_frame. intros E.
  cbn [append] in E. injection E as E.
  apply split_at_char in E as [E1 E];
    [| apply xmlEscape_no_apos | apply xmlEscape_no_apos].
  cbn [append] in E. injection E as E.
  apply split_at_char in E as [E2 E];
    [| apply xmlEscape_no_apos | apply xmlEscape_no_apos].
  cbn [append] in E. injection E as E.
  apply split_at_char in E as [E3 _];
    [| apply xmlEscape_no_lt | apply xmlEscape_no_lt].
  auto using xmlEscape_inj.
Qed.

(** X13: the frame [Send] writes determines the recipient, the type and the
    text of the chat: no choice of these three strings produces the frame
    of another choice, so nothing the caller passes can pose as markup. *)
Theorem Send_frame_determines_chat (c1 c2 : Chat) (fuel : nat) (w : World) :
  out (snd (Send c1 fuel w)) = (out w ++ [message_frame c1])%list
  /\ (out (snd (Send c1 fuel w)) = out (snd (Send c2 fuel w)) ->
      Remote c1 = Remote c2 /\ Type_ c1 = Type_ c2 /\ Text_ c1 = Text_ c2).
Proof.
  assert (O : forall c, out (snd (Send c fuel w))
                        = (out w ++ [message_frame c])%list).
  { intros c. unfold Send. fold (message_frame c). rewrite bind_eq.
    unfold Fprintf. destruct (wr_errs w) as [| [e |] errs]; reflexivity. }
  split; [apply O |]. rewrite !O. intros E.
  apply app_inv_head in E. apply message_frame_inj.
  exact (f_equal (fun l => hd "" l) E).
Qed.

(** ** The texts of DIGEST-MD5 *)

Lemma hex_digit_is_hex (n : N) : (n < 16)%N -> is_lower_hex (Fmt.hex_digit n) = true.
Proof.
  intros L. destruct n as [| p]; [reflexivity |].
  do 4 (destruct p as [p | p |]; try reflexivity); lia.
Qed.

Lemma length_of_list (l : list ascii) :
  String.length (Bytes.of_list l) = List.length l.
Proof. induction l; simpl; congruence. Qed.

Lemma to_list_of_list (l : list ascii) : Bytes.to_list (Bytes.of_list l) = l.
Proof. induction l; simpl; congruence. Qed.

Lemma x_bytes_hex (b : list N) :
  Forall (fun n => (n < 256)%N) b ->
  String.length (Fmt.x_bytes b) = 2 * List.length b
  /\ forallb is_lower_hex (Bytes.to_list (Fmt.x_bytes b)) = true.
Proof.
  unfold Fmt.x_bytes. rewrite length_of_list, to_list_of_list.
  induction 1 as [| n b Hn F [IH1 IH2]]; [split; reflexivity |].
  cbn [flat_map List.length app forallb]. rewrite IH1, IH2.
  split; [lia |].
  rewrite !hex_digit_is_hex; [reflexivity | |].
  - change 15%N with (N.ones 4). rewrite N.land_ones.
    apply N.mod_lt. discriminate.
  - rewrite N.shiftr_div_pow2. now apply N.Div0.div_lt_upper_bound.
Qed.

Lemma le_bytes_bytes (n : nat) (x : N) :
  List.length (MD5.le_bytes n x) = n
  /\ Forall (fun b => (b < 256)%N) (MD5.le_bytes n x).
Proof.
  unfold MD5.le_bytes. split; [now rewrite length_map, length_seq |].
  apply Forall_map, Forall_forall. intros i _.
  change 255%N with (N.ones 8). rewrite N.land_ones.
  apply N.mod_lt. discriminate.
Qed.

Lemma md5_sum_bytes (msg : list N) :
  List.length (MD5.sum_bytes msg) = 16
  /\ Forall (fun b => (b < 256)%N) (MD5.sum_bytes msg).
Proof.
  unfold MD5.sum_bytes.
  destruct (MD5.blocks _ MD5.init (MD5.pad msg)) as [[[A B] C] D].
  rewrite !length_app, !(proj1 (le_bytes_bytes 4 _)).
  split; [reflexivity |].
  repeat (apply Forall_app; split); apply le_bytes_bytes.
Qed.

(** X14: whatever the user name, realm, password, nonces and URI, the response
    of [saslDigestResponse] is a text of 32 lower-case hexadecimal
    digits. *)
Theorem saslDigestResponse_is_hex32
    (username realm passwd nonce cnonceStr authenticate digestUri
       nonceCountStr : string) :
  let response := saslDigestResponse username realm passwd nonce cnonceStr
                    authenticate digestUri nonceCountStr in
  String.length response = 32
  /\ forallb is_lower_hex (Bytes.to_list response) = true.
Proof.
  unfold saslDigestResponse, MD5.sum. cbv zeta.
  match goal with
  | |- context [Fmt.x_bytes (MD5.sum_bytes ?m)] =>
      destruct (md5_sum_bytes m) as [L F];
      destruct (x_bytes_hex _ F) as [L' H'];
      rewrite L in L'
  end.
  split; assumption.
Qed.

Lemma hex_digits_bound (fuel : nat) :
  forall (n : N) (acc : list ascii) (k : nat),
    (n < 16 ^ N.of_nat (S k))%N ->
    List.length (Fmt.hex_digits fuel n acc) <= List.length acc + S k
    /\ (forallb is_lower_hex acc = true ->
        forallb is_lower_hex (Fmt.hex_digits fuel n acc) = true).
Proof.
  induction fuel as [| fuel IH]; intros n acc k L; cbn [Fmt.hex_digits].
  - split; [lia | auto].
  - assert (D : is_lower_hex (Fmt.hex_digit (N.land n 15)) = true).
    { apply hex_digit_is_hex. change 15%N with (N.ones 4).
      rewrite N.land_ones. apply N.mod_lt. discriminate. }
    destruct (N.eqb_spec (N.shiftr n 4) 0) as [Z | NZ].
    + cbn [List.length forallb]. rewrite D. split; [lia | auto].
    + destruct k as [| k].
      { exfalso. apply NZ. rewrite N.shiftr_div_pow2.
        apply N.div_small. exact L. }
      destruct (IH (N.shiftr n 4) (Fmt.hex_digit (N.land n 15) :: acc) k)
        as [I1 I2].
      { rewrite N.shiftr_div_pow2. apply N.Div0.div_lt_upper_bound.
        change (2 ^ 4)%N with 16%N.
        rewrite <- N.pow_succ_r'. now rewrite <- Nnat.Nat2N.inj_succ. }
      cbn [List.length forallb] in I1, I2. rewrite D in I2.
      split; [lia | auto].
Qed.

(** X15: [cnonce] returns 16 lower-case hexadecimal digits when the random
    source answers, and the empty string when it fails; it does not
    fail. *)
Theorem cnonce_is_16_hex_digits (fuel : nat) (w : World) :
  exists s,
    fst (cnonce fuel w) = Ret s
    /\ match rand w with
       | inl _ :: _ => s = ""
       | _ => String.length s = 16
              /\ forallb is_lower_hex (Bytes.to_list s) = true
       end.
Proof.
  unfold cnonce. rewrite bind_eq. unfold rand_uint64.
  destruct (rand w) as [| [e | n] rest]; cbv iota beta.
  - eexists. split; [reflexivity |]. split; reflexivity.
  - eexists. split; [reflexivity |]. reflexivity.
  - eexists. split; [reflexivity |]. unfold Fmt.x_uint_pad. cbv zeta.
    set (m := N.land n 0xFFFFFFFFFFFFFFFF).
    assert (Lm : (m < 16 ^ N.of_nat 16)%N).
    { unfold m. change 0xFFFFFFFFFFFFFFFF%N with (N.ones 64).
      rewrite N.land_ones. apply N.mod_lt. discriminate. }
    destruct (hex_digits_bound (S (N.to_nat (N.log2 m))) m [] 15 Lm)
      as [B H].
    cbn [List.length Nat.add] in B.
    rewrite length_of_list, to_list_of_list, length_app, repeat_length.
    split; [lia |].
    rewrite forallb_app, (H eq_refl), andb_true_r.
    apply forallb_forall. intros c Hc. apply repeat_spec in Hc. now subst c.
Qed.

(** ** The host connect names *)

Lemma cut_none (s : string) (sep : ascii) :
  Strings.cut s sep = None <-> ~ In sep (Bytes.to_list s).
Proof.
  induction s as [| c s IH]; simpl; [tauto |].
  destruct (Ascii.eqb_spec c sep) as [-> | N].
  - split; [discriminate |]. intros H. exfalso. apply H. now left.
  - destruct (Strings.cut s sep) as [[x y] |].
    + split; [discriminate |]. intros H.
      assert (H' : ~ In sep (Bytes.to_list s)) by (intros H'; apply H; now right).
      apply IH in H'. discriminate H'.
    + split; [| reflexivity]. intros _ [E | H]; [now apply N |].
      now apply (proj1 IH).
Qed.

Lemma cut_found (x y : string) (sep : ascii) :
  ~ In sep (Bytes.to_list x) ->
  Strings.cut (x ++ String sep y) sep = Some (x, y).
Proof.
  induction x as [| c x IH]; simpl; intros H.
  - now rewrite Ascii.eqb_refl.
  - destruct (Ascii.eqb_spec c sep) as [-> | N]; [exfalso; apply H; now left |].
    rewrite IH; [reflexivity |]. intros H'. apply H. now right.
Qed.

Lemma cut_some (s : string) (sep : ascii) (x y : string) :
  Strings.cut s sep = Some (x, y) ->
  s = x ++ String sep y /\ ~ In sep (Bytes.to_list x).
Proof.
  revert x. induction s as [| c s IH]; intros x; simpl; [discriminate |].
  destruct (Ascii.eqb_spec c sep) as [-> | N].
  - intros [= <- <-]. simpl. tauto.
  - destruct (Strings.cut s sep) as [[x' y'] |]; [| discriminate].
    intros [= <- <-]. destruct (IH x' eq_refl) as [-> Hx].
    simpl. split; [reflexivity |]. intros [E | H]; auto.
Qed.

Lemma SplitN2 (s : string) (sep : ascii) :
  Strings.SplitN s sep 2
  = match Strings.cut s sep with
    | Some (x, y) => [x; y]
    | None => [s]
    end.
Proof. cbn. now destruct (Strings.cut s sep) as [[x y] |]. Qed.

Lemma strip_prefix_app (p l r : list ascii) :
  Strings.strip_prefix p l = Some r -> l = (p ++ r)%list.
Proof.
  revert l. induction p as [| x p IH]; intros [| y l]; simpl; try congruence.
  destruct (Ascii.eqb_spec x y); [subst | discriminate].
  intros H. now rewrite (IH _ H).
Qed.

Lemma trim_left_keeps (c : ascii) (ps : list (list ascii)) :
  Forall (fun p => ~ In c p) ps ->
  forall fuel l, In c l -> In c (Strings.trim_left ps fuel l).
Proof.
  intros F. induction fuel as [| fuel IH]; intros l H; [exact H |].
  cbn [Strings.trim_left].
  destruct (Strings.strip_any ps l) as [r |] eqn:S; [| exact H].
  apply IH. clear IH. induction F as [| p ps Hp F IHF]; [discriminate |].
  cbn [Strings.strip_any] in S.
  destruct (Strings.strip_prefix p l) as [r' |] eqn:P.
  - injection S as ->. apply strip_prefix_app in P. subst l.
    apply in_app_or in H as [H | H]; [now destruct Hp | exact H].
  - now apply IHF.
Qed.

Lemma no_colon_in_spaces :
  Forall (fun p => ~ In ":"%char p) Strings.spaces
  /\ Forall (fun p => ~ In ":"%char p) (map (@rev ascii) Strings.spaces).
Proof.
  split; repeat constructor; cbn;
    intros H; repeat (destruct H as [H | H]; [discriminate H |]); exact H.
Qed.

(** A string with a colon in it is not blank. *)
Lemma TrimSpace_colon (s : string) :
  In ":"%char (Bytes.to_list s) -> String.eqb (Strings.TrimSpace s) "" = false.
Proof.
  intros H. unfold Strings.TrimSpace. cbv zeta.
  destruct no_colon_in_spaces as [F1 F2].
  apply (trim_left_keeps _ _ F1 (String.length s)) in H.
  apply in_rev in H.
  apply (trim_left_keeps _ _ F2
           (List.length (Strings.trim_left Strings.spaces (String.length s)
                           (Bytes.to_list s)))) in H.
  apply in_rev in H.
  destruct (rev _) as [| c l]; [destruct H | reflexivity].
Qed.

Lemma connect_host_colon (host user : string) :
  In ":"%char (Bytes.to_list (connect_host host user)).
Proof.
  unfold connect_host. cbv zeta.
  match goal with
  | |- context [Strings.SplitN ?h ":" 2] => generalize h
  end.
  intros h. rewrite SplitN2. destruct (Strings.cut h ":") as [[x y] |] eqn:C.
  - apply cut_some in C as [-> _]. rewrite to_list_app.
    apply in_or_app. right. now left.
  - rewrite to_list_app. apply in_or_app. right. now left.
Qed.

Lemma connect_host_kept (host user : string) :
  String.eqb (Strings.TrimSpace host) "" = false ->
  In ":"%char (Bytes.to_list host) ->
  connect_host host user = host.
Proof.
  intros T H. unfold connect_host. rewrite T. cbv zeta. rewrite SplitN2.
  destruct (Strings.cut host ":") as [[x y] |] eqn:C; [reflexivity |].
  apply cut_none in C. now destruct C.
Qed.

(** X16: the host [connect] asks a proxy for always names a port; a host given
    with a port is taken as it is; and completing a host twice is the same
    as completing it once. *)
Theorem connect_host_names_a_port (host user : string) :
  In ":"%char (Bytes.to_list (connect_host host user))
  /\ (In ":"%char (Bytes.to_list host) -> connect_host host user = host)
  /\ connect_host (connect_host host user) user = connect_host host user.
Proof.
  split; [apply connect_host_colon |]. split.
  - intros H. apply connect_host_kept; [now apply TrimSpace_colon | exact H].
  - apply connect_host_kept; [apply TrimSpace_colon |];
      apply connect_host_colon.
Qed.

(** X17: with no host given, the host is the part of the user name after its
    first [@], with port 5222 when that part names none. *)
Theorem connect_host_from_user (host local domain : string) :
  String.eqb (Strings.TrimSpace host) "" = true ->
  ~ In "@"%char (Bytes.to_list local) ->
  ~ In ":"%char (Bytes.to_list domain) ->
  connect_host host (local ++ String "@" domain) = domain ++ ":5222".
Proof.
  intros T L D. unfold connect_host. rewrite T.
  rewrite (SplitN2 (local ++ String "@" domain) "@").
  rewrite (cut_found local domain "@") by assumption.
  cbn [len2]. cbv zeta. rewrite (SplitN2 domain ":").
  now rewrite (proj2 (cut_none domain ":") D).
Qed.

Lemma connect_host_from_user_witness :
  connect_host "  " ("user" ++ String "@" "example.com")
  = "example.com" ++ ":5222".
Proof.
  apply (connect_host_from_user "  " "user" "example.com");
    [reflexivity | |];
    cbn; intros H; repeat (destruct H as [H | H]; [discriminate H |]);
    exact H.
Defined.

(** ** The challenge of DIGEST-MD5 *)

Lemma last_byte_app (s : string) (c : ascii) :
  Strings.last_byte (s ++ String c "") = Some c.
Proof.
  induction s as [| x s IH]; [reflexivity |].
  cbn [append Strings.last_byte]. rewrite IH.
  destruct s; reflexivity.
Qed.

Lemma drop_last_app (s : string) (c : ascii) :
  Strings.drop_last (s ++ String c "") = s.
Proof.
  induction s as [| x s IH]; [reflexivity |].
  cbn [append Strings.drop_last]. rewrite IH.
  destruct s; reflexivity.
Qed.

Lemma unquote_panics (v : string) :
  (exists msg, unquote v = inl msg) <-> v = "" \/ v = quot.
Proof.
  split.
  - intros [msg H]. destruct v as [| c r]; [now left |]. right.
    unfold unquote in H.
    destruct (Ascii.eqb_spec c "034") as [-> | N]; [| discriminate].
    destruct (Strings.last_byte (String "034" r)) as [l |]; [| discriminate].
    destruct (Ascii.eqb l "034"); [| discriminate].
    destruct r; [reflexivity | discriminate].
  - intros [-> | ->]; eexists; reflexivity.
Qed.

(** X18: how the value of a key of the challenge is read: a value between
    double quotes loses the two quotes, whatever is between them; a value
    that does not start with a double quote is kept; and the empty value
    and the value made of one double quote, and only these, make the code
    panic. *)
Theorem challenge_value_unquoted :
  (forall s, unquote (quot ++ s ++ quot) = inr s)
  /\ (forall c s, c <> "034"%char -> unquote (String c s) = inr (String c s))
  /\ (forall v, (exists msg, unquote v = inl msg) <-> v = "" \/ v = quot).
Proof.
  split; [| split; [| apply unquote_panics]].
  - intros s. unfold quot. cbn [append unquote].
    cbn [Ascii.eqb Bool.eqb andb].
    change (String "034" (s ++ String "034" ""))
      with (String "034" s ++ String "034" "").
    rewrite last_byte_app. cbn [Ascii.eqb Bool.eqb andb].
    rewrite drop_last_app. destruct s; reflexivity.
  - intros c s N. unfold unquote.
    destruct (Ascii.eqb_spec c "034"); [contradiction | reflexivity].
Qed.

Lemma parse_tokens_panics (l : list string) (t k v : string) :
  In t l ->
  len2 (Strings.SplitN (Strings.TrimSpace t) "=" 2) = Some (k, v) ->
  v = "" \/ v = quot ->
  forall acc, exists msg, parse_tokens l acc = inl msg.
Proof.
  intros Hin Hkv Hv. induction l as [| x l IH]; [destruct Hin |].
  intros acc. cbn [parse_tokens].
  destruct Hin as [-> | Hin].
  - rewrite Hkv. destruct (proj2 (unquote_panics v) Hv) as [msg ->]. eauto.
  - destruct (len2 (Strings.SplitN (Strings.TrimSpace x) "=" 2))
      as [[k' v'] |]; [| now apply IH].
    destruct (unquote v'); [eauto | now apply IH].
Qed.

Lemma decodeInto_result (ty : gotype) (start : option StartElement)
    (fuel : nat) (w w0 : World) :
  inp w0 = inp w -> rd_err w0 = rd_err w ->
  fst (decodeInto ty start fuel w0) = fst (decodeInto ty start fuel w).
Proof.
  intros I E. unfold decodeInto. rewrite I, E.
  destruct (match start with
            | Some se => Some (se, inp w)
            | None => scan_start (inp w)
            end) as [[se toks] |]; [| reflexivity].
  destruct (check_name ty se); [reflexivity |].
  destruct (read_body toks [] []) as [[kids rest] |]; [| reflexivity].
  destruct (unmarshal ty se kids); reflexivity.
Qed.

(** X19: a DIGEST-MD5 challenge in which some key has an empty value, or a
    value made of a single double quote, makes the client panic in the
    middle of authentication. *)
Theorem digest_challenge_bad_value_panics (o : Options) (user domain : string)
    (fuel : nat) (w : World) (ch b t k v : string) :
  fst (decodeInto t_saslChallenge None fuel w) = Ret ch ->
  Base64.DecodeString ch = Some b ->
  In t (Strings.Split b ",") ->
  len2 (Strings.SplitN (Strings.TrimSpace t) "=" 2) = Some (k, v) ->
  v = "" \/ v = quot ->
  exists msg, fst (auth_DIGEST_MD5 o user domain fuel w) = Panic msg.
Proof.
  intros Hch Hb Hin Hkv Hv. unfold auth_DIGEST_MD5.
  rewrite bind_eq.
  destruct (Fprintf ("<auth xmlns='" ++ nsSASL ++ "' mechanism='DIGEST-MD5'/>"
                     ++ nl) fuel w) as [r0 w0] eqn:EF.
  assert (H0 : (exists err, r0 = Ret err) /\ inp w0 = inp w
               /\ rd_err w0 = rd_err w).
  { unfold Fprintf in EF. destruct (wr_errs w); injection EF as <- <-; eauto. }
  destruct H0 as [[err ->] [I E]].
  rewrite bind_eq. unfold wrap_err.
  pose proof (decodeInto_result t_saslChallenge None fuel w w0 I E) as R.
  rewrite Hch in R.
  destruct (decodeInto t_saslChallenge None fuel w0) as [r1 w1].
  simpl in R. subst r1. rewrite bind_eq. unfold base64_DecodeString.
  rewrite Hb. cbn [ret]. cbv beta iota.
  destruct (parse_tokens_panics _ t k v Hin Hkv Hv []) as [msg ->].
  exists msg. reflexivity.
Qed.

Lemma digest_challenge_bad_value_panics_witness :
  exists msg,
    fst (auth_DIGEST_MD5 Scenario.options "user" "example.com" 9
           (Scenario.world (Scenario.challenge "bm9uY2U9eCxyZWFsbT0=") true))
    = Panic msg.
Proof.
  apply (digest_challenge_bad_value_panics Scenario.options "user"
           "example.com" 9
           (Scenario.world (Scenario.challenge "bm9uY2U9eCxyZWFsbT0=") true)
           "bm9uY2U9eCxyZWFsbT0=" "nonce=x,realm=" "realm=" "realm" "");
    [reflexivity | reflexivity | cbn; auto | reflexivity | now left].
Defined.

(** ** The user name *)

(** X20: a user name without [@] makes [init] fail at once: nothing is written
    to the connection and nothing is read from it. *)
Theorem init_rejects_user_without_at (o : Options) (fuel : nat) (w : World) :
  ~ In "@"%char (Bytes.to_list (User o)) ->
  init o fuel w
  = (Err (errorString ("xmpp: invalid username (want user@domain): "
                       ++ User o)), w).
Proof.
  intros H. unfold init. rewrite SplitN2.
  now rewrite (proj2 (cut_none (User o) "@") H).
Qed.

Lemma init_rejects_user_without_at_witness :
  init (mkOptions "example.com" "user" "pass" "" None false false false
          false false "" "") 9 Scenario.plain_text_server
  = (Err (errorString "xmpp: invalid username (want user@domain): user"),
     Scenario.plain_text_server).
Proof.
  apply (init_rejects_user_without_at
           (mkOptions "example.com" "user" "pass" "" None false false false
              false false "" "") 9 Scenario.plain_text_server).
  cbn; intros H; repeat (destruct H as [H | H]; [discriminate H |]); exact H.
Defined.

(** X21: the domain [init] opens the stream to is all of the user name after
    its first [@]; the first frame [init] writes is the stream header for
    that domain. *)
Theorem init_opens_stream_to_domain (o : Options) (local domain : string)
    (fuel : nat) (w : World) :
  User o = local ++ String "@" domain ->
  ~ In "@"%char (Bytes.to_list local) ->
  exists rest,
    out (snd (init o fuel w)) = (out w ++ stream_header domain :: rest)%list.
Proof.
  intros U L. unfold init. rewrite SplitN2, U, (cut_found local domain "@" L).
  cbn [len2]. rewrite bind_eq.
  destruct (startStream_reads o domain fuel w) as [E1 _].
  assert (O1 : out (snd (startStream o domain fuel w))
               = (out w ++ [stream_header domain])%list).
  { rewrite E1. unfold Fprintf. destruct (wr_errs w); reflexivity. }
  destruct (startStream o domain fuel w) as [[f | e | msg | e |] w1];
    cbn [snd] in O1 |- *; try (exists []; exact O1).
  match goal with
  | |- context [out (snd (?m fuel w1))] =>
      assert (K : keeps any_frame m) by keeps_init_tail;
      destruct (K fuel w1) as [_ [l [El _]]]
  end.
  exists l. rewrite El, O1, <- app_assoc. reflexivity.
Qed.

Lemma init_opens_stream_to_domain_witness :
  exists rest,
    out (snd (init (mkOptions "" "a@b@c" "" "" None false false false false
                      false "" "") 9 Scenario.plain_text_server))
    = (out Scenario.plain_text_server ++ stream_header "b@c" :: rest)%list.
Proof.
  apply (init_opens_stream_to_domain
           (mkOptions "" "a@b@c" "" "" None false false false false false
              "" "") "a" "b@c" 9 Scenario.plain_text_server);
    [reflexivity |].
  cbn; intros H; repeat (destruct H as [H | H]; [discriminate H |]); exact H.
Defined.

(** ** Write errors, the proxy and closing *)

(** X22: a failed write ends the process in [Send] and is ignored by
    [JoinMUC], [LeaveMUC], [KeepAlive], [ChangeStatus] and [SendOrg],
    which return as if the frame had been sent. *)
Theorem write_errors_are_fatal_only_in_Send (fuel : nat) (w : World)
    (j show status org : string) (chat : Chat) :
  fst (JoinMUC j fuel w) = Ret tt
  /\ fst (LeaveMUC j fuel w) = Ret tt
  /\ fst (KeepAlive fuel w) = Ret tt
  /\ fst (ChangeStatus show status fuel w) = Ret tt
  /\ fst (SendOrg org fuel w) = Ret tt
  /\ fst (Send chat fuel w) = match wr_errs w with
                              | Some e :: _ => Fatal e
                              | _ => Ret tt
                              end.
Proof.
  assert (F : forall s, fst ((Fprintf s ;;; ret tt) fuel w) = Ret tt).
  { intros s. rewrite bind_eq. unfold Fprintf.
    destruct (wr_errs w); reflexivity. }
  split; [apply F |]. split; [unfold LeaveMUC; rewrite bind_eq; apply F |].
  split; [apply F |]. split; [apply F |]. split; [apply F |].
  unfold Send. rewrite bind_eq. unfold Fprintf.
  destruct (wr_errs w) as [| [e |] errs]; reflexivity.
Qed.

Lemma bind_gets {A B} (f : World -> A) (k : A -> M B) (fuel : nat)
    (w : World) :
  bind (gets f) k fuel w = k (f w) fuel w.
Proof. reflexivity. Qed.

Lemma bind_ret {A B} (a : A) (k : A -> M B) (fuel : nat) (w : World) :
  bind (ret a) k fuel w = k a fuel w.
Proof. reflexivity. Qed.

(** What a write leaves behind. *)
Lemma Fprintf_spec (s : string) (fuel : nat) (w : World) :
  exists err w',
    Fprintf s fuel w = (Ret err, w')
    /\ out w' = (out w ++ [s])%list
    /\ dialed w' = dialed w /\ proxy_resp w' = proxy_resp w.
Proof.
  unfold Fprintf. destruct (wr_errs w); eexists _, _; repeat split.
Qed.

(** X23: through a proxy [connect] dials the proxy, asks it for the completed
    host, and returns with success exactly when the status code of the
    answer is 200; with another code the error is the text of the status
    after its first space. *)
Theorem connect_through_proxy (host user passwd : string) (fuel : nat)
    (w : World) (h : string) (code : nat) (c phrase : string) :
  String.eqb (if String.eqb (HTTP_PROXY w) "" then http_proxy w
              else HTTP_PROXY w) "" = false ->
  proxy_host w = Some h ->
  dial_err w = None ->
  proxy_resp w = inr (code, c ++ String " " phrase) ->
  ~ In " "%char (Bytes.to_list c) ->
  let r := connect host user passwd fuel w in
  dialed (snd r) = (dialed w ++ [h])%list
  /\ out (snd r)
     = (out w ++ connect_request (connect_host host user))%list
  /\ fst r = if Nat.eqb code 200 then Ret tt else Err (errorString phrase).
Proof.
  intros P H D R C. cbv zeta.
  assert (G : exists w3,
             connect host user passwd fuel w
             = (if Nat.eqb code 200 then Ret tt else Err (errorString phrase),
                w3)
             /\ dialed w3 = (dialed w ++ [h])%list
             /\ out w3
                = (out w ++ connect_request (connect_host host user))%list).
  2:{ destruct G as [w3 [-> [Dd Oo]]]. repeat split; assumption. }
  unfold connect. cbv zeta. rewrite bind_gets.
  assert (Hp : forall k : string -> M unit,
             bind (if String.eqb (HTTP_PROXY w) "" then gets http_proxy
                   else ret (HTTP_PROXY w)) k fuel w
             = k (if String.eqb (HTTP_PROXY w) "" then http_proxy w
                  else HTTP_PROXY w) fuel w).
  { intros k. destruct (String.eqb (HTTP_PROXY w) ""); reflexivity. }
  rewrite Hp, P. cbn [negb].
  rewrite bind_assoc, bind_gets, H, bind_ret.
  rewrite bind_eq. unfold net_Dial. rewrite bind_eq. unfold modify.
  rewrite bind_gets. cbn [dial_err set_dialed]. rewrite D. unfold ret at 1.
  set (w0 := set_dialed (dialed w ++ [h]) w).
  destruct (Fprintf_spec ("CONNECT " ++ connect_host host user ++ " HTTP/1.1"
                          ++ crlf) fuel w0) as [e1 [w1 [E1 [O1 [D1 R1]]]]].
  destruct (Fprintf_spec ("Host: " ++ connect_host host user ++ crlf) fuel w1)
    as [e2 [w2 [E2 [O2 [D2 R2]]]]].
  destruct (Fprintf_spec crlf fuel w2) as [e3 [w3 [E3 [O3 [D3 R3]]]]].
  rewrite bind_eq, E1, bind_eq, E2, bind_eq, E3, bind_gets.
  rewrite R3, R2, R1. cbn [w0 set_dialed proxy_resp]. rewrite R.
  rewrite SplitN2, (cut_found c phrase " " C).
  exists w3. split; [| split].
  - destruct (Nat.eqb code 200); reflexivity.
  - rewrite D3, D2, D1. reflexivity.
  - rewrite O3, O2, O1. unfold connect_request. cbn [w0 set_dialed out].
    now rewrite <- 2 app_assoc.
Qed.

Lemma connect_through_proxy_witness :
  let w := mkWorld "http://proxy:3128" "" (Some "proxy:3128") None []
             (inr (407, "407" ++ String " " "Proxy Authentication Required"))
             [] (fun _ => None) [] false [] [] io_EOF [] false "" in
  let r := connect "example.com" "user@example.com" "" 0 w in
  dialed (snd r) = ([] ++ ["proxy:3128"])%list
  /\ out (snd r)
     = ([] ++ connect_request
                (connect_host "example.com" "user@example.com"))%list
  /\ fst r = if Nat.eqb 407 200 then Ret tt
             else Err (errorString "Proxy Authentication Required").
Proof.
  apply (connect_through_proxy "example.com" "user@example.com" "" 0
           (mkWorld "http://proxy:3128" "" (Some "proxy:3128") None []
              (inr (407, "407" ++ String " " "Proxy Authentication Required"))
              [] (fun _ => None) [] false [] [] io_EOF [] false "")
           "proxy:3128" 407 "407" "Proxy Authentication Required");
    try reflexivity.
  cbn; intros H; repeat (destruct H as [H | H]; [discriminate H |]); exact H.
Defined.

(** X24: after a successful [connect], [NewClient] closes the connection when
    [init] returns an error, on the connection taken as it is as well as on
    the one wrapped in TLS after a handshake and a verification of the host
    name that succeeded; when the TLS handshake or the verification fails
    the error is returned with the connection left open. *)
Theorem NewClient_closes_after_init_only (o : Options) (fuel : nat)
    (w w1 : World) :
  connect (Host o) (User o) (Password o) fuel w = (Ret tt, w1) ->
  (NoTLS o = false ->
   forall e hs, handshakes w1 = Some e :: hs ->
                NewClient o fuel w = (Err e, set_handshakes hs w1))
  /\ (NoTLS o = true ->
      forall e w2, init o fuel (set_tls false w1) = (Err e, w2) ->
                   NewClient o fuel w = (Err e, set_closed true w2))
  /\ (NoTLS o = false ->
      forall wh, Handshake fuel w1 = (Ret None, wh) ->
      verify_hostname wh
        match Strings.LastIndex (Host o) ":" with
        | Some (S i) => String.substring 0 (S i) (Host o)
        | _ => Host o
        end = None ->
      forall e w2, init o fuel (set_tls true wh) = (Err e, w2) ->
                   NewClient o fuel w = (Err e, set_closed true w2))
  /\ (NoTLS o = false ->
      forall wh e, Handshake fuel w1 = (Ret None, wh) ->
      verify_hostname wh
        match Strings.LastIndex (Host o) ":" with
        | Some (S i) => String.substring 0 (S i) (Host o)
        | _ => Host o
        end = Some e ->
      NewClient o fuel w = (Err e, wh) /\ closed wh = closed w1).
Proof.
  intros C. unfold NewClient. rewrite bind_eq, C.
  repeat apply conj; intros N; rewrite N.
  - intros e hs Hh. rewrite !bind_eq. unfold Handshake. rewrite Hh.
    reflexivity.
  - intros e w2 Hi. rewrite bind_eq. unfold modify, close_on_error.
    cbv beta iota. rewrite Hi. reflexivity.
  - intros wh Hh V e w2 Hi. rewrite !bind_eq, Hh, bind_eq.
    unfold gets. cbv beta iota. rewrite V.
    unfold modify, close_on_error. cbv beta iota. rewrite Hi. reflexivity.
  - intros wh e Hh V. split.
    + rewrite !bind_eq, Hh, bind_eq. unfold gets. cbv beta iota. rewrite V.
      reflexivity.
    + unfold Handshake in Hh.
      destruct (handshakes w1); inversion Hh; reflexivity.
Qed.

Lemma NewClient_closes_after_init_only_witness :
  NewClient Scenario.plain_text_options 9 Scenario.plain_text_server
  = (Err (errorString refusal),
     set_closed true
       (snd (init Scenario.plain_text_options 9
               (set_tls false
                  (snd (connect "example.com" "user@example.com" "pass" 9
                          Scenario.plain_text_server))))))
  /\ NewClient Scenario.options 9 Scenario.no_stream_server
     = (Err (errorString
               ("expected <stream> but got <features> in " ++ nsStream)),
        set_closed true
          (snd (init Scenario.options 9
                  (set_tls true
                     (snd (connect "example.com" "user@example.com" "pass" 9
                             Scenario.no_stream_server)))))).
Proof.
  split.
  - destruct (NewClient_closes_after_init_only Scenario.plain_text_options 9
                Scenario.plain_text_server
                (snd (connect "example.com" "user@example.com" "pass" 9
                        Scenario.plain_text_server)))
      as [_ [H _]]; [reflexivity |].
    apply (H eq_refl). apply returned_error. vm_compute. reflexivity.
  - destruct (NewClient_closes_after_init_only Scenario.options 9
                Scenario.no_stream_server
                (snd (connect "example.com" "user@example.com" "pass" 9
                        Scenario.no_stream_server)))
      as [_ [_ [H _]]]; [reflexivity |].
    apply (H eq_refl _ eq_refl eq_refl). apply returned_error.
    vm_compute. reflexivity.
Defined.

(** ** The first presence *)

(** X25: the last frame a successful [init] has written is the presence with
    the status and the status message of the options put in as they are;
    when neither holds a special character it is the frame [ChangeStatus]
    writes for them. *)
Theorem init_ends_with_presence (o : Options) (fuel : nat) (w w' : World) :
  init o fuel w = (Ret tt, w') ->
  (exists before,
      out w' = (before ++ [presence_frame (Status o) (StatusMessage o)])%list)
  /\ (existsb is_special (Bytes.to_list (Status o)) = false ->
      existsb is_special (Bytes.to_list (StatusMessage o)) = false ->
      forall w0,
        last (out (snd (ChangeStatus (Status o) (StatusMessage o) fuel w0))) ""
        = last (out w') "").
Proof.
  intros H.
  assert (G : exists before,
             out w' = (before ++ [presence_frame (Status o) (StatusMessage o)])%list).
  { unfold init in H.
    destruct (len2 (Strings.SplitN (User o) "@" 2)) as [[u d] |];
      [| discriminate H].
    do 3 (let a := fresh "a" in
          let w := fresh "w" in
          let E := fresh "E" in
          apply bind_Ret_inv in H as [a [w [E H]]]).
    destruct (negb a1 && negb (InsecureAllowUnencryptedAuth o));
      [discriminate H |].
    cbv zeta in H.
    apply bind_Ret_inv in H as [m [wm [_ H]]].
    destruct (String.eqb m ""); [discriminate H |].
    apply bind_Ret_inv in H as [r [wr [_ H]]].
    destruct r as [name val].
    apply bind_Ret_inv in H as [u1 [w1' [_ H]]].
    apply bind_Ret_inv in H as [f2 [w2' [_ H]]].
    apply bind_Ret_inv in H as [ck [w3' [_ H]]].
    apply bind_Ret_inv in H as [we [w4' [_ H]]].
    apply bind_Ret_inv in H as [iq [w5' [_ H]]].
    unfold address_is_nil in H. cbv iota in H.
    apply bind_Ret_inv in H as [u2 [w6' [_ H]]].
    apply bind_Ret_inv in H as [u3 [w7' [_ H]]].
    apply bind_Ret_inv in H as [e8 [w8' [E8 H]]].
    injection H as <-. fold (presence_frame (Status o) (StatusMessage o)) in E8.
    exists (out w7'). unfold Fprintf in E8.
    destruct (wr_errs w7'); injection E8 as _ <-; reflexivity. }
  split; [exact G |].
  intros S1 S2 w0. destruct G as [before ->]. rewrite last_last.
  unfold ChangeStatus. rewrite bind_eq.
  destruct (Fprintf_spec
              ("<presence xml:lang='en'><show>" ++ xmlEscape (Status o)
               ++ "</show><status>" ++ xmlEscape (StatusMessage o)
               ++ "</status></presence>") fuel w0) as [e [w1 [-> [O _]]]].
  cbn [ret snd]. rewrite O, last_last.
  assert (X : forall s, existsb is_special (Bytes.to_list s) = false ->
                        xmlEscape s = s).
  { induction s as [| c s IH]; [reflexivity |]. simpl. intros E.
    apply orb_false_elim in E as [N E].
    destruct (xmlSpecial_spec c)
      as [[-> Q] | [[-> Q] | [[-> Q] | [[-> Q] | [[-> Q] | [Q _]]]]]];
      try discriminate N.
    rewrite Q. f_equal. now apply IH. }
  now rewrite (X _ S1), (X _ S2).
Qed.

Lemma init_ends_with_presence_witness :
  exists before,
    out (snd (init (Scenario.with_status "<dnd/>" "R&D") 8
                (Scenario.world
                   (Scenario.plain_session
                      (Scenario.bound_as "user@example.com/bot")) true)))
    = (before ++ [presence_frame "<dnd/>" "R&D"])%list.
Proof.
  refine (proj1 (init_ends_with_presence (Scenario.with_status "<dnd/>" "R&D")
                   8
                   (Scenario.world
                      (Scenario.plain_session
                         (Scenario.bound_as "user@example.com/bot")) true)
                   _ _)).
  apply returned. vm_compute. reflexivity.
Defined.
